(** * Gesture-key firmware: signal pipeline and session logic

    A shallow embedding of the gesture-matching core of the firmware
    (utilities.cpp, gyro.cpp and the session loop of main.cpp).

    Numbers are modelled the way the target has them:
    - [float] is IEEE-754 binary32 with round-to-nearest-even, through the
      executable operations of [SpecFloat] at precision 24 and maximal
      exponent 128; every operation of the source rounds on its own;
    - [int16_t] is a [Z] with the wrap-around of the narrowing conversion
      written out;
    - [std::vector] is a [list], indices are [nat], and an access outside
      the vector (undefined behaviour in the source) is the error [None]. *)

From Stdlib Require Import ZArith Bool Lia QArith Lqa.
From Stdlib Require Import Floats.SpecFloat.
From stdpp Require Import base list.

#[local] Open Scope Z_scope.

(** ** binary32 arithmetic *)

Module Float32.

Definition prec : Z := 24.
Definition emax : Z := 128.

Definition float : Type := spec_float.

(** Conversion of an integer (an [int] or a [size_t]) to float. *)
Definition of_Z (z : Z) : float := binary_normalize prec emax z 0 false.

Definition zero : float := S754_zero false.
Definition NaN : float := S754_nan.

Definition add : float -> float -> float := SFadd prec emax.
Definition sub : float -> float -> float := SFsub prec emax.
Definition mul : float -> float -> float := SFmul prec emax.
Definition div : float -> float -> float := SFdiv prec emax.
Definition sqrt : float -> float := SFsqrt prec emax.
Definition fabs : float -> float := SFabs.

(** The comparisons of C++: each is false on an unordered pair, except
    [!=], which is true there. *)
Definition eqb : float -> float -> bool := SFeqb.
Definition neqb (x y : float) : bool := negb (SFeqb x y).
Definition ltb : float -> float -> bool := SFltb.
Definition leb : float -> float -> bool := SFleb.
Definition gtb (x y : float) : bool := SFltb y x.

Definition is_nan (x : float) : bool :=
  match x with S754_nan => true | _ => false end.

Definition is_finite (x : float) : bool :=
  match x with S754_zero _ | S754_finite _ _ _ => true | _ => false end.

(** The rational a finite float denotes (0 on infinities and NaN, which
    [is_finite] excludes). *)
Definition to_Q (x : float) : Q :=
  match x with
  | S754_finite s m e =>
      ((if s then Z.neg m else Z.pos m) # 1) * Qpower (2 # 1) e
  | _ => 0%Q
  end.

End Float32.

(** ** int16_t *)

Module Int16.

Definition min_int : Z := -32768.
Definition max_int : Z := 32767.

Definition in_range (z : Z) : Prop := min_int <= z <= max_int.

(** Conversion of an [int] to [int16_t]: reduction modulo 2^16. *)
Definition wrap (z : Z) : Z := (z + 32768) mod 65536 - 32768.

End Int16.

(** ** system_config.h

    The header is not among the sources.  Its constants are parameters of
    the development.  The threshold is taken among the floats: comparing
    a float with a constant of type double is comparing it with the
    largest float that is not above the constant. *)

Record SystemConfig : Type := {
  CORRELATION_THRESHOLD : Float32.float;
  FULL_SCALE_245 : Z;
  FULL_SCALE_500 : Z;
  FULL_SCALE_2000 : Z;
  FULL_SCALE_2000_ALT : Z;
  SENSITIVITY_245 : Float32.float;
  SENSITIVITY_500 : Float32.float;
  SENSITIVITY_2000 : Float32.float
}.

Definition WINDOW_SIZE : nat := 5.

(** One 3-axis sample, [array<float, 3>]. *)
Record Sample : Type := mkSample {
  axis_x : Float32.float;
  axis_y : Float32.float;
  axis_z : Float32.float
}.

Definition axis (i : nat) (p : Sample) : Float32.float :=
  match i with
  | O => axis_x p
  | S O => axis_y p
  | _ => axis_z p
  end.

(** ** utilities.cpp *)

Module Utilities.
Import Float32.

(** The five running sums of [correlation]. *)
Record Sums : Type := mkSums {
  sum_a : float;
  sum_b : float;
  sum_ab : float;
  sq_sum_a : float;
  sq_sum_b : float
}.

Definition sums0 : Sums := mkSums zero zero zero zero zero.

(** First loop of [correlation]: is some [a[i]] or [b[i]] different from
    zero.  The vectors have the same size here. *)
Fixpoint has_variation (a b : list float) : bool :=
  match a, b with
  | x :: a', y :: b' =>
      if neqb x zero || neqb y zero then true else has_variation a' b'
  | _, _ => false
  end.

(** Body of the second loop. *)
Definition sum_step (s : Sums) (ai bi : float) : Sums :=
  let delta_a := sub ai (sum_a s) in
  let delta_b := sub bi (sum_b s) in
  {| sum_a := add (sum_a s) delta_a;
     sum_b := add (sum_b s) delta_b;
     sum_ab := add (sum_ab s) (mul delta_a delta_b);
     sq_sum_a := add (sq_sum_a s) (mul ai ai);
     sq_sum_b := add (sq_sum_b s) (mul bi bi) |}.

Fixpoint sum_loop (s : Sums) (a b : list float) : Sums :=
  match a, b with
  | x :: a', y :: b' => sum_loop (sum_step s x y) a' b'
  | _, _ => s
  end.

Definition correlation (a b : list float) : float :=
  if negb (length a =? length b)%nat then NaN
  else if negb (has_variation a b) then NaN
  else
    let s := sum_loop sums0 a b in
    let n := of_Z (Z.of_nat (length a)) in
    let numerator := sub (sum_ab s) (div (mul (sum_a s) (sum_b s)) n) in
    let denominator :=
      sqrt (mul (sub (sq_sum_a s) (div (mul (sum_a s) (sum_a s)) n))
                (sub (sq_sum_b s) (div (mul (sum_b s) (sum_b s)) n))) in
    if eqb denominator zero then NaN
    else div numerator denominator.

(** [resize] to a size that is at most the current one truncates. *)
Definition resize_down (n : nat) (v : list Sample) : list Sample := take n v.

(** The two vectors are taken by reference and may be resized: they are
    returned next to the result. *)
Definition calculateCorrelationVectors (vec1 vec2 : list Sample)
  : Sample * list Sample * list Sample :=
  let min_size := Nat.min (length vec1) (length vec2) in
  let differ := negb (length vec1 =? length vec2)%nat in
  let vec1' := if differ then resize_down min_size vec1 else vec1 in
  let vec2' := if differ then resize_down min_size vec2 else vec2 in
  let result i := correlation (map (axis i) vec1') (map (axis i) vec2') in
  (mkSample (result 0%nat) (result 1%nat) (result 2%nat), vec1', vec2').

(** [float threshold = 0.00001]: the binary32 value nearest to 1e-5,
    10995116 * 2^-40. *)
Definition threshold : float := S754_finite false 10995116 (-40).

(** The loop condition of both scans: every axis of the sample under
    [ptr] is within the threshold.  [abs] is the overload on [float]; a
    NaN axis fails the comparison and so counts as active. *)
Definition below_threshold (p : Sample) : bool :=
  leb (fabs (axis_x p)) threshold &&
  leb (fabs (axis_y p)) threshold &&
  leb (fabs (axis_z p)) threshold.

(** [while (below(ptr[0])) ptr++], started at [ptr] with [rest] the
    elements from [ptr] to [end()].  The loop has no bound of its own:
    once [rest] is exhausted it dereferences [end()]. *)
Fixpoint scan_forward (rest : list Sample) (ptr : nat) : option nat :=
  match rest with
  | [] => None
  | p :: rest' =>
      if below_threshold p then scan_forward rest' (S ptr) else Some ptr
  end.

(** [while (below(ptr[0])) ptr--], started at [ptr].  Stepping below
    [begin()] and dereferencing is out of bounds as well. *)
Fixpoint scan_backward (data : list Sample) (ptr : nat) : option nat :=
  match data !! ptr with
  | None => None
  | Some p =>
      if below_threshold p then
        match ptr with
        | O => None
        | S ptr' => scan_backward data ptr'
        end
      else Some ptr
  end.

(** [for (; replace_ptr != lptr && lptr <= rptr; replace_ptr++, lptr++)
      replace_ptr[0] = lptr[0];]
    [n] bounds the number of iterations; [replace_ptr] never exceeds
    [lptr], whose read is checked. *)
Fixpoint shift_loop (n : nat) (data : list Sample)
    (replace_ptr lptr rptr : nat) : option (list Sample * nat * nat) :=
  if negb (replace_ptr =? lptr)%nat && (lptr <=? rptr)%nat then
    match n with
    | O => None
    | S n' =>
        match data !! lptr with
        | None => None
        | Some v =>
            shift_loop n' (<[replace_ptr := v]> data)
                       (S replace_ptr) (S lptr) rptr
        end
    end
  else Some (data, replace_ptr, lptr).

Definition trim_gyro_data (data : list Sample) : option (list Sample) :=
  match scan_forward data 0 with
  | None => None
  | Some ptr =>
      if (ptr =? length data)%nat then Some data
      else
        let lptr := ptr in
        match scan_backward data (length data - 1) with
        | None => None
        | Some rptr =>
            match shift_loop (length data) data 0 lptr rptr with
            | None => None
            | Some (data', replace_ptr, lptr') =>
                if (rptr <? lptr')%nat
                then Some (take replace_ptr data')
                else Some (take (S rptr) data')
            end
        end
  end.

End Utilities.

(** ** gyro.cpp *)

Module Gyro.
Import Float32.

Record Gyroscope_Init_Parameters : Type := {
  conf1 : Z;
  conf3 : Z;
  conf4 : Z
}.

(** The three fields are [int16_t]. *)
Record Gyroscope_RawData : Type := mkRaw {
  x_raw : Z;
  y_raw : Z;
  z_raw : Z
}.

(** The globals of gyro.cpp.  [gyro_raw] stands for the structure the
    pointer of that name refers to. *)
Record GyroState : Type := mkGyro {
  x_threshold : Z;
  y_threshold : Z;
  z_threshold : Z;
  x_sample : Z;
  y_sample : Z;
  z_sample : Z;
  sensitivity : float;
  gyro_raw : Gyroscope_RawData
}.

(** The state at program start: globals without initialiser are zero
    and [sensitivity = 0.0f]. *)
Definition gyro0 : GyroState :=
  mkGyro 0 0 0 0 0 0 zero (mkRaw 0 0 0).

(** The sensor behind [GetGyroValue]: the reading delivered by the
    [k]-th acquisition. *)
Definition Sensor : Type := nat -> Gyroscope_RawData.

(** The locals [sumX], [sumY], [sumZ] of [CalibrateGyroscope], each an
    [int16_t]. *)
Record CalibSums : Type := mkCalib {
  sumX : Z;
  sumY : Z;
  sumZ : Z
}.

(** One iteration of the calibration loop on the reading [rd]: the
    addition is done on [int] and narrowed back to [int16_t]. *)
Definition calibrate_step (rd : Gyroscope_RawData)
    (acc : CalibSums) (st : GyroState) : CalibSums * GyroState :=
  ({| sumX := Int16.wrap (sumX acc + x_raw rd);
      sumY := Int16.wrap (sumY acc + y_raw rd);
      sumZ := Int16.wrap (sumZ acc + z_raw rd) |},
   {| x_threshold := Z.max (x_threshold st) (x_raw rd);
      y_threshold := Z.max (y_threshold st) (y_raw rd);
      z_threshold := Z.max (z_threshold st) (z_raw rd);
      x_sample := x_sample st;
      y_sample := y_sample st;
      z_sample := z_sample st;
      sensitivity := sensitivity st;
      gyro_raw := rd |}).

(** [n] iterations, the next acquisition being the [k]-th. *)
Fixpoint calibrate_loop (n k : nat) (sensor : Sensor)
    (acc : CalibSums) (st : GyroState) : CalibSums * GyroState :=
  match n with
  | O => (acc, st)
  | S n' =>
      let '(acc', st') := calibrate_step (sensor k) acc st in
      calibrate_loop n' (S k) sensor acc' st'
  end.

Definition CalibrateGyroscope (sensor : Sensor) (k : nat) (st : GyroState)
  : GyroState :=
  let '(acc, st') := calibrate_loop 128 k sensor (mkCalib 0 0 0) st in
  {| x_threshold := x_threshold st';
     y_threshold := y_threshold st';
     z_threshold := z_threshold st';
     x_sample := Int16.wrap (Z.shiftr (sumX acc) 7);
     y_sample := Int16.wrap (Z.shiftr (sumY acc) 7);
     z_sample := Int16.wrap (Z.shiftr (sumZ acc) 7);
     sensitivity := sensitivity st';
     gyro_raw := gyro_raw st' |}.

(** The [switch] on [conf4]; it has no [default] label. *)
Definition select_sensitivity (cfg : SystemConfig) (c4 : Z) (old : float)
  : float :=
  if c4 =? FULL_SCALE_245 cfg then SENSITIVITY_245 cfg
  else if c4 =? FULL_SCALE_500 cfg then SENSITIVITY_500 cfg
  else if c4 =? FULL_SCALE_2000 cfg then SENSITIVITY_2000 cfg
  else if c4 =? FULL_SCALE_2000_ALT cfg then SENSITIVITY_2000 cfg
  else old.

Definition recognized (cfg : SystemConfig) (c4 : Z) : bool :=
  (c4 =? FULL_SCALE_245 cfg) || (c4 =? FULL_SCALE_500 cfg) ||
  (c4 =? FULL_SCALE_2000 cfg) || (c4 =? FULL_SCALE_2000_ALT cfg).

Definition set_sensitivity (s : float) (st : GyroState) : GyroState :=
  {| x_threshold := x_threshold st;
     y_threshold := y_threshold st;
     z_threshold := z_threshold st;
     x_sample := x_sample st;
     y_sample := y_sample st;
     z_sample := z_sample st;
     sensitivity := s;
     gyro_raw := gyro_raw st |}.

(** [void InitiateGyroscope]: the register writes go to the bus and
    leave the globals alone; the function has no result and no failure
    path. *)
Definition InitiateGyroscope (cfg : SystemConfig)
    (init_parameters : Gyroscope_Init_Parameters)
    (sensor : Sensor) (k : nat) (st : GyroState) : GyroState :=
  let st1 :=
    set_sensitivity
      (select_sensitivity cfg (conf4 init_parameters) (sensitivity st)) st in
  CalibrateGyroscope sensor k st1.

Definition ConvertToDPS (st : GyroState) (axis_data : Z) : float :=
  mul (of_Z axis_data) (sensitivity st).

(** One axis of [GetCalibratedRawData]: subtract the bias, then zero the
    reading when it is below the threshold in magnitude. *)
Definition calibrate_axis (raw sample thr : Z) : Z :=
  let v := Int16.wrap (raw - sample) in
  if Z.abs v <? Z.abs thr then 0 else v.

Definition GetCalibratedRawData (sensor : Sensor) (k : nat) (st : GyroState)
  : GyroState :=
  let rd := sensor k in
  {| x_threshold := x_threshold st;
     y_threshold := y_threshold st;
     z_threshold := z_threshold st;
     x_sample := x_sample st;
     y_sample := y_sample st;
     z_sample := z_sample st;
     sensitivity := sensitivity st;
     gyro_raw :=
       mkRaw (calibrate_axis (x_raw rd) (x_sample st) (x_threshold st))
             (calibrate_axis (y_raw rd) (y_sample st) (y_threshold st))
             (calibrate_axis (z_raw rd) (z_sample st) (z_threshold st)) |}.

End Gyro.

(** ** main.cpp *)

Module Main.
Import Float32 Utilities Gyro.

(** The three globals of one axis of the moving-average filter:
    [gyro_buffer], [gyro_index], [gyro_sum]. *)
Record FilterState : Type := mkFilter {
  buffer : list float;
  index : nat;
  sum : float
}.

(** [float gyro_buffer_x[WINDOW_SIZE] = {0}], index 0, sum 0. *)
Definition filter0 : FilterState :=
  mkFilter (replicate WINDOW_SIZE zero) 0 zero.

(** [buffer[index]] is an unchecked access: outside the array it is the
    error [None]. *)
Definition movingAverageFilter (new_value : float) (f : FilterState)
  : option (float * FilterState) :=
  match buffer f !! index f with
  | None => None
  | Some old =>
      let sum1 := sub (sum f) old in
      let buffer' := <[index f := new_value]> (buffer f) in
      let sum2 := add sum1 new_value in
      let index' := ((index f + 1) mod WINDOW_SIZE)%nat in
      Some (div sum2 (of_Z (Z.of_nat WINDOW_SIZE)),
            mkFilter buffer' index' sum2)
  end.

Definition normalize_point (point : Sample) : Sample :=
  let x := axis_x point in
  let y := axis_y point in
  let z := axis_z point in
  let magnitude := sqrt (add (add (mul x x) (mul y y)) (mul z z)) in
  if gtb magnitude zero
  then mkSample (div x magnitude) (div y magnitude) (div z magnitude)
  else point.

Definition normalize (data : list Sample) : list Sample :=
  map normalize_point data.

(** The value of [flags.wait_any(KEY_FLAG | UNLOCK_FLAG | ERASE_FLAG)],
    one boolean per tested bit. *)
Record Flags : Type := mkFlags {
  ERASE_FLAG : bool;
  KEY_FLAG : bool;
  UNLOCK_FLAG : bool
}.

(** The status lines the session loop leaves on the display. *)
Inductive Message : Type :=
| MsgNone
| MsgKeyErased
| MsgFinished
| MsgKeySaved
| MsgNewKeySaved
| MsgNoKeySaved
| MsgUnlockSuccess
| MsgUnlockFailed.

(** The globals [gesture_key] and [unlocking_record], the two LEDs and
    the last status line. *)
Record KeyStore : Type := mkKeys {
  gesture_key : list Sample;
  unlocking_record : list Sample;
  led_status_green : bool;
  led_status_red : bool;
  display : Message
}.

Definition keys0 : KeyStore := mkKeys [] [] true false MsgNone.

(** [if (flag_check & ERASE_FLAG)] *)
Definition erase_key (ks : KeyStore) : KeyStore :=
  mkKeys [] [] true false MsgKeyErased.

(** [if (flag_check & KEY_FLAG)]: both branches assign [temp_key] to
    [gesture_key]. *)
Definition save_key (temp_key : list Sample) (ks : KeyStore) : KeyStore :=
  match gesture_key ks with
  | [] => mkKeys temp_key (unlocking_record ks) false true MsgKeySaved
  | _ :: _ => mkKeys temp_key (unlocking_record ks) false true MsgNewKeySaved
  end.

(** The loop over [correlationResult] counting the axes above the
    threshold. *)
Definition count_axes (cfg : SystemConfig) (correlationResult : Sample)
  : nat :=
  fold_left
    (fun unlock_count i =>
       if gtb (axis i correlationResult) (CORRELATION_THRESHOLD cfg)
       then S unlock_count else unlock_count)
    [0; 1; 2]%nat 0%nat.

(** The key and the record as the comparison leaves them, with the
    three correlations. *)
Definition compare_key (key record : list Sample)
  : Sample * list Sample * list Sample :=
  let target_size := Nat.min (length key) (length record) in
  let key1 := normalize (resize_down target_size key) in
  let record1 := normalize (resize_down target_size record) in
  calculateCorrelationVectors key1 record1.

(** [else if (flag_check & UNLOCK_FLAG)] *)
Definition unlock (cfg : SystemConfig) (temp_key : list Sample)
    (ks : KeyStore) : KeyStore :=
  let unlocking_record1 := temp_key in
  match gesture_key ks with
  | [] => mkKeys [] [] true false MsgNoKeySaved
  | _ :: _ =>
      let '(correlationResult, key', _) :=
        compare_key (gesture_key ks) unlocking_record1 in
      if (count_axes cfg correlationResult =? 3)%nat
      then mkKeys key' [] true false MsgUnlockSuccess
      else mkKeys key' [] false true MsgUnlockFailed
  end.

Record Filters : Type := mkFilters {
  filter_x : FilterState;
  filter_y : FilterState;
  filter_z : FilterState
}.

(** [n] passes of the recording loop, the next acquisition being the
    [k]-th; the timer decides [n]. *)
Fixpoint record_loop (n k : nat) (sensor : Sensor) (g : GyroState)
    (fl : Filters) (temp_key : list Sample)
  : option (GyroState * Filters * list Sample) :=
  match n with
  | O => Some (g, fl, temp_key)
  | S n' =>
      let g' := GetCalibratedRawData sensor k g in
      '(smoothed_x, fx) ←
        movingAverageFilter (ConvertToDPS g' (x_raw (gyro_raw g')))
                            (filter_x fl);
      '(smoothed_y, fy) ←
        movingAverageFilter (ConvertToDPS g' (y_raw (gyro_raw g')))
                            (filter_y fl);
      '(smoothed_z, fz) ←
        movingAverageFilter (ConvertToDPS g' (z_raw (gyro_raw g')))
                            (filter_z fl);
      record_loop n' (S k) sensor g' (mkFilters fx fy fz)
        (temp_key ++ [mkSample smoothed_x smoothed_y smoothed_z])
  end.

Record Session : Type := mkSession {
  keys : KeyStore;
  gyro : GyroState;
  filters : Filters
}.

Definition session0 : Session :=
  mkSession keys0 gyro0 (mkFilters filter0 filter0 filter0).

Definition set_display (m : Message) (ks : KeyStore) : KeyStore :=
  mkKeys (gesture_key ks) (unlocking_record ks)
         (led_status_green ks) (led_status_red ks) m.

(** One pass of the [while (1)] of [gyroscope_thread] on the flags
    [flag_check], with [n] acquisitions in the recording loop.  The
    thread always initialises with [FULL_SCALE_500]. *)
Definition gyroscope_thread_iteration (cfg : SystemConfig)
    (flag_check : Flags) (sensor : Sensor) (n : nat) (s : Session)
  : option Session :=
  let init_parameters :=
    {| conf1 := 0; conf3 := 0; conf4 := FULL_SCALE_500 cfg |} in
  let ks1 := if ERASE_FLAG flag_check then erase_key (keys s) else keys s in
  '(ks2, g2, fl2, temp_key) ←
    (if KEY_FLAG flag_check || UNLOCK_FLAG flag_check then
       let g1 := InitiateGyroscope cfg init_parameters sensor 0 (gyro s) in
       '(g2, fl2, recorded) ←
         record_loop n 128 sensor g1 (filters s) [];
       temp_key ← trim_gyro_data recorded;
       Some (set_display MsgFinished ks1, g2, fl2, temp_key)
     else Some (ks1, gyro s, filters s, []));
  let ks3 :=
    if KEY_FLAG flag_check then save_key temp_key ks2
    else if UNLOCK_FLAG flag_check then unlock cfg temp_key ks2
    else ks2 in
  Some (mkSession ks3 g2 fl2).

End Main.

(** ** The Pearson coefficient of the specification *)

Module PearsonSpec.
Import Float32.

(** Written after the specification's words: running sums of a, b, a.b,
    a^2 and b^2, then
    [numerator = sum_ab - sum_a*sum_b/n] and
    [denominator = sqrt((sq_sum_a - sum_a^2/n) * (sq_sum_b - sum_b^2/n))]. *)
Definition fsum (l : list float) : float := fold_left add l zero.

Definition pearson (a b : list float) : float :=
  let n := of_Z (Z.of_nat (length a)) in
  let sa := fsum a in
  let sb := fsum b in
  let sab := fsum (zip_with mul a b) in
  let saa := fsum (zip_with mul a a) in
  let sbb := fsum (zip_with mul b b) in
  let numerator := sub sab (div (mul sa sb) n) in
  let denominator :=
    sqrt (mul (sub saa (div (mul sa sa) n)) (sub sbb (div (mul sb sb) n))) in
  div numerator denominator.

End PearsonSpec.

(** ** An instance of the configuration

    Used where a statement needs concrete constants: the full-scale
    selectors and sensitivities of an L3GD20-class gyroscope and a
    threshold of one half. *)

Definition example_config : SystemConfig :=
  {| CORRELATION_THRESHOLD := Float32.div (Float32.of_Z 1) (Float32.of_Z 2);
     FULL_SCALE_245 := 0;
     FULL_SCALE_500 := 16;
     FULL_SCALE_2000 := 32;
     FULL_SCALE_2000_ALT := 48;
     SENSITIVITY_245 := Float32.div (Float32.of_Z 875) (Float32.of_Z 100000);
     SENSITIVITY_500 := Float32.div (Float32.of_Z 175) (Float32.of_Z 10000);
     SENSITIVITY_2000 := Float32.div (Float32.of_Z 7) (Float32.of_Z 100) |}.

(** Samples with integer coordinates. *)
Definition sample_of_Z (x y z : Z) : Sample :=
  mkSample (Float32.of_Z x) (Float32.of_Z y) (Float32.of_Z z).

Definition f1 : Float32.float := Float32.of_Z 1.
Definition f2 : Float32.float := Float32.of_Z 2.

(** ** Notions used by the statements *)

(** The three correlations an unlock attempt computes against the stored
    key. *)
Definition correlationResult (ks : Main.KeyStore) (temp_key : list Sample)
  : Sample :=
  fst (fst (Main.compare_key (Main.gesture_key ks) temp_key)).

(** [c > CORRELATION_THRESHOLD] *)
Definition exceeds (cfg : SystemConfig) (c : Float32.float) : bool :=
  Float32.gtb c (CORRELATION_THRESHOLD cfg).

(** A key and an attempt on which the decision is exercised. *)
Definition zigzag : list Sample :=
  [sample_of_Z 1 1 1; sample_of_Z (-1) (-1) (-1); sample_of_Z 1 1 1].

Definition zigzag_store : Main.KeyStore :=
  Main.mkKeys zigzag [] false true Main.MsgKeySaved.

(** A stored key of two samples and a shorter attempt. *)
Definition two_sample_key : list Sample :=
  [sample_of_Z 3 4 0; sample_of_Z 0 2 0].

Definition two_sample_store : Main.KeyStore :=
  Main.mkKeys two_sample_key [] false true Main.MsgKeySaved.

Definition short_attempt : list Sample := [sample_of_Z 1 0 0].

(** A sensor that delivers the same reading at every acquisition. *)
Definition constant_sensor (vx vy vz : Z) : Gyro.Sensor :=
  fun _ => Gyro.mkRaw vx vy vz.

(** Initialisation parameters with the full-scale selector [c4]. *)
Definition init_with (c4 : Z) : Gyro.Gyroscope_Init_Parameters :=
  {| Gyro.conf1 := 0; Gyro.conf3 := 0; Gyro.conf4 := c4 |}.

(** The gyroscope state after a first initialisation with the selector
    of the 500 dps range. *)
Definition initialised_500 : Gyro.GyroState :=
  Gyro.InitiateGyroscope example_config (init_with 16)
    (constant_sensor 3 (-2) 1) 0 Gyro.gyro0.

(** A run of one axis of the filter: the values pushed in order, the
    averages returned and the final state. *)
Fixpoint push_all (vs : list Float32.float) (f : Main.FilterState)
  : option (list Float32.float * Main.FilterState) :=
  match vs with
  | [] => Some ([], f)
  | v :: vs' =>
      '(o, f1) ← Main.movingAverageFilter v f;
      '(os, f2) ← push_all vs' f1;
      Some (o :: os, f2)
  end.

(** The sum of the window in binary32, left to right, and as a rational. *)
Definition window_sum (w : list Float32.float) : Float32.float :=
  fold_left Float32.add w Float32.zero.

Definition Qsum (w : list Float32.float) : Q :=
  fold_right (fun x acc => (Float32.to_Q x + acc)%Q) 0%Q w.

(** An operation is exact when its result is finite and denotes the
    rational result of the operation on what its operands denote. *)
Definition exact_add (x y : Float32.float) : bool :=
  Float32.is_finite (Float32.add x y) &&
  Qeq_bool (Float32.to_Q (Float32.add x y)) (Float32.to_Q x + Float32.to_Q y).

Definition exact_sub (x y : Float32.float) : bool :=
  Float32.is_finite (Float32.sub x y) &&
  Qeq_bool (Float32.to_Q (Float32.sub x y)) (Float32.to_Q x - Float32.to_Q y).

Definition exact_div (x y : Float32.float) : bool :=
  Float32.is_finite (Float32.div x y) &&
  Qeq_bool (Float32.to_Q (Float32.div x y) * Float32.to_Q y) (Float32.to_Q x).

(** The subtraction and the addition of one push are exact. *)
Definition exact_push (v : Float32.float) (f : Main.FilterState) : bool :=
  match Main.buffer f !! Main.index f with
  | None => false
  | Some old =>
      exact_sub (Main.sum f) old &&
      exact_add (Float32.sub (Main.sum f) old) v
  end.

Fixpoint exact_run (vs : list Float32.float) (f : Main.FilterState) : bool :=
  match vs with
  | [] => true
  | v :: vs' =>
      exact_push v f &&
      match Main.movingAverageFilter v f with
      | Some (_, f1) => exact_run vs' f1
      | None => false
      end
  end.

(** The window has [WINDOW_SIZE] entries and the index is inside it. *)
Definition well_formed (f : Main.FilterState) : Prop :=
  (Main.index f < WINDOW_SIZE)%nat /\ length (Main.buffer f) = WINDOW_SIZE.

(** The running sum denotes the sum of the window. *)
Definition sum_matches (f : Main.FilterState) : Prop :=
  (Float32.to_Q (Main.sum f) == Qsum (Main.buffer f))%Q.

(** Pushes on which the running sum loses a unit: 2^24, 1, then four
    zeros. *)
Definition drift_inputs : list Float32.float :=
  [Float32.of_Z 16777216; f1; Float32.zero; Float32.zero; Float32.zero;
   Float32.zero].

(** The largest finite binary32 number. *)
Definition max_float : Float32.float := S754_finite false 16777215 104.

(** The sample at rest, and a recording of two of them. *)
Definition origin : Sample := mkSample Float32.zero Float32.zero Float32.zero.

Definition still_recording : list Sample := [origin; origin].

(** Trimming twice: the second pass runs on the result of the first. *)
Definition trim_twice (data : list Sample) : option (list Sample) :=
  Utilities.trim_gyro_data data ≫= Utilities.trim_gyro_data.

(** A record request, and nothing else. *)
Definition record_requested : Main.Flags := Main.mkFlags false true false.

(** ** gyro.cpp: the bus read of [GetGyroValue] *)

Module GyroBus.

(** [low | high << 8], narrowed to [int16_t].  [low] is the result of the
    transfer written as the left operand and [high] that of the right
    one; the expression does not fix which of the two transfers happens
    first on the bus. *)
Definition assemble (low high : Z) : Z :=
  Int16.wrap (Z.lor low (Z.shiftl high 8)).

(** The results of the six transfers of one read, named by axis and by
    operand. *)
Record Transfers : Type := mkTransfers {
  x_low : Z;
  x_high : Z;
  y_low : Z;
  y_high : Z;
  z_low : Z;
  z_high : Z
}.

Definition GetGyroValue (t : Transfers) : Gyro.Gyroscope_RawData :=
  Gyro.mkRaw (assemble (x_low t) (x_high t))
             (assemble (y_low t) (y_high t))
             (assemble (z_low t) (z_high t)).

(** The two bytes of a 16-bit two's complement value. *)
Definition low_byte (v : Z) : Z := v mod 256.
Definition high_byte (v : Z) : Z := (v / 256) mod 256.

Definition is_byte (b : Z) : Prop := 0 <= b <= 255.

End GyroBus.

(** ** main.cpp: the touch screen *)

Module Touch.

Definition button1_x : Z := 60.
Definition button1_y : Z := 80.
Definition button1_width : Z := 120.
Definition button1_height : Z := 50.
Definition button2_x : Z := 60.
Definition button2_y : Z := 180.
Definition button2_width : Z := 120.
Definition button2_height : Z := 50.

Definition is_touch_inside_button
    (touch_x touch_y button_x button_y button_width button_height : Z)
  : bool :=
  (button_x <=? touch_x) && (touch_x <=? button_x + button_width) &&
  (button_y <=? touch_y) && (touch_y <=? button_y + button_height).

(** What [ts.GetState] delivers. *)
Record TS_StateTypeDef : Type := mkTouch {
  TouchDetected : bool;
  X : Z;
  Y : Z
}.

(** The flags one pass of the loop of [touch_screen_thread] sets. *)
Record Requests : Type := mkRequests {
  sets_KEY_FLAG : bool;
  sets_UNLOCK_FLAG : bool
}.

Definition touch_screen_poll (ts_state : TS_StateTypeDef) : Requests :=
  if TouchDetected ts_state then
    let touch_x := X ts_state in
    let touch_y := Y ts_state in
    {| sets_KEY_FLAG :=
         is_touch_inside_button touch_x touch_y
           button1_x button1_y button1_width button1_height;
       sets_UNLOCK_FLAG :=
         is_touch_inside_button touch_x touch_y
           button2_x button2_y button2_width button2_height |}
  else mkRequests false false.

End Touch.

(** ** Further notions used by the statements *)

(** The three axes, to state a property once for all of them. *)
Inductive Axis : Type := AxisX | AxisY | AxisZ.

Definition raw_of (a : Axis) (rd : Gyro.Gyroscope_RawData) : Z :=
  match a with
  | AxisX => Gyro.x_raw rd
  | AxisY => Gyro.y_raw rd
  | AxisZ => Gyro.z_raw rd
  end.

Definition threshold_of (a : Axis) (st : Gyro.GyroState) : Z :=
  match a with
  | AxisX => Gyro.x_threshold st
  | AxisY => Gyro.y_threshold st
  | AxisZ => Gyro.z_threshold st
  end.

Definition bias_of (a : Axis) (st : Gyro.GyroState) : Z :=
  match a with
  | AxisX => Gyro.x_sample st
  | AxisY => Gyro.y_sample st
  | AxisZ => Gyro.z_sample st
  end.

(** A zero of either sign. *)
Definition is_zero (x : Float32.float) : bool :=
  match x with S754_zero _ => true | _ => false end.

Definition zero_sample (p : Sample) : bool :=
  is_zero (axis_x p) && is_zero (axis_y p) && is_zero (axis_z p).

Definition nan_sample (p : Sample) : bool :=
  Float32.is_nan (axis_x p) || Float32.is_nan (axis_y p) ||
  Float32.is_nan (axis_z p).

(** A sample counts as active when the scans of the trim stop on it. *)
Definition active (p : Sample) : Prop := Utilities.below_threshold p = false.

(** A filter at rest: a well-formed window of zeros with running sum
    [+0]. *)
Definition quiet (f : Main.FilterState) : Prop :=
  well_formed f /\
  Forall (fun x => is_zero x = true) (Main.buffer f) /\
  Main.sum f = Float32.zero.

Definition quiet_filters (fl : Main.Filters) : Prop :=
  quiet (Main.filter_x fl) /\ quiet (Main.filter_y fl) /\
  quiet (Main.filter_z fl).

(** The calibration profile of a gyroscope state: everything but the last
    reading. *)
Definition same_profile (g g' : Gyro.GyroState) : Prop :=
  (forall a, threshold_of a g' = threshold_of a g) /\
  (forall a, bias_of a g' = bias_of a g) /\
  Gyro.sensitivity g' = Gyro.sensitivity g.

(** A sensor that is quiet during the calibration burst and then turns
    about the x axis. *)
Definition moving_sensor : Gyro.Sensor :=
  fun k => if (k <? 128)%nat then Gyro.mkRaw 0 0 0 else Gyro.mkRaw 100 0 0.

Definition unlock_requested : Main.Flags := Main.mkFlags false false true.

(** A recording with rest before and after the motion. *)
Definition padded_recording : list Sample :=
  [origin; sample_of_Z 1 0 0; origin; sample_of_Z 0 2 0; origin].

(** The running sums of [correlation] with the two sequences exchanged. *)
Definition swap_sums (s : Utilities.Sums) : Utilities.Sums :=
  Utilities.mkSums (Utilities.sum_b s) (Utilities.sum_a s)
    (Utilities.sum_ab s) (Utilities.sq_sum_b s) (Utilities.sq_sum_a s).

(** The three sums of the calibration fit [int16_t]. *)
Definition sums_in_range (acc : Gyro.CalibSums) : Prop :=
  Int16.in_range (Gyro.sumX acc) /\ Int16.in_range (Gyro.sumY acc) /\
  Int16.in_range (Gyro.sumZ acc).

(** The four full-scale selectors are different values, as the labels of
    one [switch] are. *)
Definition distinct_selectors (cfg : SystemConfig) : Prop :=
  FULL_SCALE_245 cfg <> FULL_SCALE_500 cfg /\
  FULL_SCALE_245 cfg <> FULL_SCALE_2000 cfg /\
  FULL_SCALE_245 cfg <> FULL_SCALE_2000_ALT cfg /\
  FULL_SCALE_500 cfg <> FULL_SCALE_2000 cfg /\
  FULL_SCALE_500 cfg <> FULL_SCALE_2000_ALT cfg /\
  FULL_SCALE_2000 cfg <> FULL_SCALE_2000_ALT cfg.

(** A reading whose 128-fold sum fits 16 bits. *)
Definition small_reading (v : Z) : Prop := -256 <= v <= 255.

(** The value of an unsigned 16-bit pattern read as two's complement. *)
Definition signed16 (u : Z) : Z := if u <? 32768 then u else u - 65536.

(** The three filters read inside their windows. *)
Definition filters_well_formed (fl : Main.Filters) : Prop :=
  well_formed (Main.filter_x fl) /\ well_formed (Main.filter_y fl) /\
  well_formed (Main.filter_z fl).

(** A session in which a key is stored, with the gyroscope and the
    filters as at program start. *)
Definition locked_session : Main.Session :=
  Main.mkSession two_sample_store Gyro.gyro0 (Main.filters Main.session0).

(** * Properties *)

Import Float32.

(** ** Constants *)

(** The trimming threshold is the float nearest to 1/100000. *)
Lemma threshold_nearest :
  Utilities.threshold = div (of_Z 1) (of_Z 100000).
Proof. vm_compute. reflexivity. Qed.

(** ** Correlation *)

Lemma compare_nan_r (x : float) : SFcompare x S754_nan = None.
Proof. destruct x; reflexivity. Qed.

Lemma gtb_nan (t : float) : gtb NaN t = false.
Proof. unfold gtb, SFltb, NaN. now rewrite compare_nan_r. Qed.

Lemma gtb_true_not_nan (x t : float) : gtb x t = true -> is_nan x = false.
Proof.
  destruct x; try reflexivity.
  intros H. pose proof (gtb_nan t) as Hn. unfold NaN in Hn. congruence.
Qed.

(** Mismatched sizes are answered with NaN. *)
Lemma correlation_length_mismatch (a b : list float) :
  length a <> length b -> Utilities.correlation a b = NaN.
Proof.
  intros Hne. unfold Utilities.correlation.
  destruct (Nat.eqb_spec (length a) (length b)) as [Heq | _]; [ | reflexivity ].
  contradiction.
Qed.

Lemma has_variation_all_zero (a b : list float) :
  Forall (fun x => eqb x zero = true) a ->
  Forall (fun y => eqb y zero = true) b ->
  Utilities.has_variation a b = false.
Proof.
  intros Ha. revert b.
  induction Ha as [ | x a Hx _ IH ]; intros b Hb; [ reflexivity | ].
  destruct Hb as [ | y b Hy Hb ]; [ reflexivity | ].
  cbn [Utilities.has_variation]. unfold neqb. fold eqb.
  rewrite Hx, Hy. cbn. now apply IH.
Qed.

(** Two sequences in which every value compares equal to zero are
    answered with NaN, whatever their sizes. *)
Lemma correlation_all_zero (a b : list float) :
  Forall (fun x => eqb x zero = true) a ->
  Forall (fun y => eqb y zero = true) b ->
  Utilities.correlation a b = NaN.
Proof.
  intros Ha Hb. unfold Utilities.correlation.
  destruct (negb (length a =? length b)%nat); [ reflexivity | ].
  now rewrite (has_variation_all_zero a b Ha Hb).
Qed.

(** C1 (the code departs from the claim).  [correlation] is documented as
    the Pearson coefficient, and the coefficient of a sequence with itself
    is 1.  On a = b = [1.0, 2.0] the coefficient of the specification is
    1, and the function returns 0: its running [sum_a] and [sum_b] hold
    the last element, not the sum. *)
Theorem correlation_self_not_one :
  Utilities.correlation [f1; f2] [f1; f2] = zero /\
  PearsonSpec.pearson [f1; f2] [f1; f2] = f1.
Proof. split; vm_compute; reflexivity. Qed.

(** C3 (the code departs from the claim).  A sequence of zero variance is
    to be answered with NaN.  On a = [1.0, 1.0], of zero variance, and
    b = [1.0, 2.0] the function returns 0: the denominator it tests is
    computed from the last elements instead of the sums and is not zero
    here. *)
Theorem correlation_zero_variance_not_nan :
  Utilities.correlation [f1; f1] [f1; f2] = zero /\
  is_nan (Utilities.correlation [f1; f1] [f1; f2]) = false.
Proof. split; vm_compute; reflexivity. Qed.

(** The result can leave the interval [-1, 1] the function documents:
    on a = b = [0.0, 3.0, 0.0] it is 2. *)
Lemma correlation_out_of_range :
  Utilities.correlation [zero; of_Z 3; zero] [zero; of_Z 3; zero] = f2.
Proof. vm_compute; reflexivity. Qed.

(** ** The unlock decision *)

Section UnlockDecision.
Import Main.
Variable cfg : SystemConfig.

Lemma count_axes_three (c : Sample) :
  (count_axes cfg c =? 3)%nat =
  exceeds cfg (axis_x c) && exceeds cfg (axis_y c) && exceeds cfg (axis_z c).
Proof.
  unfold count_axes, exceeds. cbn [fold_left axis].
  destruct (gtb (axis_x c) _), (gtb (axis_y c) _), (gtb (axis_z c) _);
    reflexivity.
Qed.

Lemma unlock_display (temp_key : list Sample) (ks : KeyStore) :
  gesture_key ks <> [] ->
  display (unlock cfg temp_key ks) =
  if (count_axes cfg (correlationResult ks temp_key) =? 3)%nat
  then MsgUnlockSuccess else MsgUnlockFailed.
Proof.
  intros Hkey. unfold unlock, correlationResult.
  destruct (gesture_key ks) as [ | p key ] eqn:Ek; [ contradiction | ].
  destruct (compare_key (p :: key) temp_key) as [[c k'] r'].
  cbn [fst]. now destruct (count_axes cfg c =? 3)%nat.
Qed.

(** C2.  An unlock attempt compared against a stored key succeeds if and
    only if each of the three correlations is strictly above
    [CORRELATION_THRESHOLD]; otherwise it fails; and a NaN on any axis
    makes it fail. *)
Theorem unlock_success_iff_all_axes_exceed
    (temp_key : list Sample) (ks : KeyStore) :
  gesture_key ks <> [] ->
  let c := correlationResult ks temp_key in
  let outcome := display (unlock cfg temp_key ks) in
  (outcome = MsgUnlockSuccess <->
     exceeds cfg (axis_x c) = true /\ exceeds cfg (axis_y c) = true /\
     exceeds cfg (axis_z c) = true) /\
  (outcome = MsgUnlockSuccess \/ outcome = MsgUnlockFailed) /\
  (is_nan (axis_x c) || is_nan (axis_y c) || is_nan (axis_z c) = true ->
     outcome = MsgUnlockFailed).
Proof.
  intros Hkey c outcome. subst outcome.
  rewrite (unlock_display temp_key ks Hkey). fold c.
  rewrite count_axes_three.
  destruct (exceeds cfg (axis_x c)) eqn:Ex, (exceeds cfg (axis_y c)) eqn:Ey,
           (exceeds cfg (axis_z c)) eqn:Ez; cbn [andb];
    (split; [ split; [ intros H; try discriminate H; now repeat split
                     | intros (H1 & H2 & H3); try discriminate; reflexivity ]
            | split; [ auto | ] ]);
    intros Hnan; try reflexivity.
  apply gtb_true_not_nan in Ex, Ey, Ez.
  rewrite Ex, Ey, Ez in Hnan. discriminate Hnan.
Qed.

End UnlockDecision.

Lemma unlock_success_iff_all_axes_exceed_witness :
  Main.gesture_key zigzag_store <> [] /\
  Main.display (Main.unlock example_config zigzag zigzag_store)
  = Main.MsgUnlockSuccess.
Proof.
  split; [ discriminate | ].
  apply (unlock_success_iff_all_axes_exceed example_config zigzag zigzag_store).
  - discriminate.
  - split; [ | split ]; vm_compute; reflexivity.
Defined.

(** ** Saving a recording without an active sample *)

(** C5 (the code departs from the claim).  A recording without an active
    sample is to be turned down as a save, without an out-of-range
    access.  With a key stored and the device at rest, a pass on a record
    request records sixty samples at rest; the trim that precedes the
    save reads past the end of that recording, so the pass does not
    complete and no save is turned down. *)
Theorem record_pass_inactive_out_of_bounds :
  Utilities.trim_gyro_data (replicate 60 origin) = None /\
  Main.gyroscope_thread_iteration example_config record_requested
    (constant_sensor 3 (-2) 1) 60 locked_session = None.
Proof. split; vm_compute; reflexivity. Qed.

(** ** The stored key across an unlock attempt *)

Lemma length_normalize (data : list Sample) :
  length (Main.normalize data) = length data.
Proof. unfold Main.normalize. apply length_map. Qed.

(** After the caller's truncation the two sequences have the same size,
    so [calculateCorrelationVectors] resizes nothing. *)
Lemma compare_key_leaves (key record : list Sample) :
  snd (fst (Main.compare_key key record)) =
  Main.normalize (take (Nat.min (length key) (length record)) key).
Proof.
  unfold Main.compare_key, Utilities.calculateCorrelationVectors,
    Utilities.resize_down.
  set (n := Nat.min (length key) (length record)).
  assert (Hlen : length (Main.normalize (take n key)) =
                 length (Main.normalize (take n record))).
  { rewrite !length_normalize, !length_take. subst n. lia. }
  rewrite Hlen, Nat.eqb_refl. reflexivity.
Qed.

(** C6, the claim as stated fails: an unlock attempt against the stored
    key [two_sample_key] with a one-sample attempt leaves a stored key of
    one sample, and that sample is the normalised one. *)
Lemma unlock_changes_stored_key :
  Main.gesture_key (Main.unlock example_config short_attempt two_sample_store)
  <> Main.gesture_key two_sample_store /\
  length (Main.gesture_key
            (Main.unlock example_config short_attempt two_sample_store)) = 1%nat.
Proof. split; [ vm_compute; discriminate | vm_compute; reflexivity ]. Qed.

(** C6, amended.  An unlock attempt performed while a key is stored
    leaves as stored key the previous key truncated to the shorter of the
    two sizes and normalised sample by sample; the unlocking record is
    cleared. *)
Theorem unlock_truncates_and_normalizes
    (cfg : SystemConfig) (temp_key : list Sample) (ks : Main.KeyStore) :
  Main.gesture_key ks <> [] ->
  Main.gesture_key (Main.unlock cfg temp_key ks) =
    Main.normalize
      (take (Nat.min (length (Main.gesture_key ks)) (length temp_key))
            (Main.gesture_key ks)) /\
  Main.unlocking_record (Main.unlock cfg temp_key ks) = [].
Proof.
  intros Hkey.
  pose proof (compare_key_leaves (Main.gesture_key ks) temp_key) as Hk.
  unfold Main.unlock.
  destruct (Main.gesture_key ks) as [ | p key ] eqn:Ek; [ contradiction | ].
  destruct (Main.compare_key (p :: key) temp_key) as [[c k'] r'].
  cbn [fst snd] in Hk. subst k'.
  destruct (Main.count_axes cfg c =? 3)%nat; split; reflexivity.
Qed.

Lemma unlock_truncates_and_normalizes_witness :
  Main.gesture_key two_sample_store <> [] /\
  Main.gesture_key (Main.unlock example_config short_attempt two_sample_store)
  = Main.normalize (take 1 two_sample_key).
Proof.
  split; [ discriminate | ].
  apply (unlock_truncates_and_normalizes
           example_config short_attempt two_sample_store).
  discriminate.
Defined.

(** ** Calibration *)

Lemma wrap_in_range (z : Z) : Int16.in_range z -> Int16.wrap z = z.
Proof.
  unfold Int16.in_range, Int16.min_int, Int16.max_int, Int16.wrap.
  intros H. rewrite Z.mod_small by lia. lia.
Qed.

Lemma wrap_add_wrap (a b : Z) :
  Int16.wrap (Int16.wrap a + b) = Int16.wrap (a + b).
Proof.
  unfold Int16.wrap.
  replace ((a + 32768) mod 65536 - 32768 + b + 32768)
    with ((a + 32768) mod 65536 + b) by lia.
  rewrite Zplus_mod_idemp_l. f_equal. f_equal. lia.
Qed.

(** The calibration loop on a constant reading: each sum is the wrapped
    multiple of the reading, each threshold the maximum of its previous
    value and the reading. *)
Lemma calibrate_loop_constant (rd : Gyro.Gyroscope_RawData) (n k : nat)
    (acc : Gyro.CalibSums) (st : Gyro.GyroState) :
  Gyro.calibrate_loop (S n) k (fun _ => rd) acc st =
  (Gyro.mkCalib
     (Int16.wrap (Gyro.sumX acc + Z.of_nat (S n) * Gyro.x_raw rd))
     (Int16.wrap (Gyro.sumY acc + Z.of_nat (S n) * Gyro.y_raw rd))
     (Int16.wrap (Gyro.sumZ acc + Z.of_nat (S n) * Gyro.z_raw rd)),
   Gyro.mkGyro
     (Z.max (Gyro.x_threshold st) (Gyro.x_raw rd))
     (Z.max (Gyro.y_threshold st) (Gyro.y_raw rd))
     (Z.max (Gyro.z_threshold st) (Gyro.z_raw rd))
     (Gyro.x_sample st) (Gyro.y_sample st) (Gyro.z_sample st)
     (Gyro.sensitivity st) rd).
Proof.
  revert k acc st. induction n as [ | n IH ]; intros k acc st.
  - cbn. repeat f_equal; lia.
  - change (Gyro.calibrate_loop (S (S n)) k (fun _ => rd) acc st)
      with (Gyro.calibrate_loop (S n) (S k) (fun _ => rd)
              (fst (Gyro.calibrate_step rd acc st))
              (snd (Gyro.calibrate_step rd acc st))).
    rewrite IH. cbn [Gyro.calibrate_step fst snd Gyro.sumX Gyro.sumY Gyro.sumZ
      Gyro.x_threshold Gyro.y_threshold Gyro.z_threshold
      Gyro.x_sample Gyro.y_sample Gyro.z_sample Gyro.sensitivity].
    rewrite !wrap_add_wrap.
    f_equal; f_equal; try lia; f_equal; lia.
Qed.

(** On a constant stream of a reading between -256 and 255 the bias is
    the reading; the threshold is the larger of the reading and the
    threshold left by earlier calibrations. *)
Lemma calibrate_constant_small (v : Z) (k : nat) (st : Gyro.GyroState) :
  -256 <= v <= 255 ->
  let st' := Gyro.CalibrateGyroscope (constant_sensor v v v) k st in
  Gyro.x_sample st' = v /\ Gyro.y_sample st' = v /\ Gyro.z_sample st' = v /\
  Gyro.x_threshold st' = Z.max (Gyro.x_threshold st) v /\
  Gyro.y_threshold st' = Z.max (Gyro.y_threshold st) v /\
  Gyro.z_threshold st' = Z.max (Gyro.z_threshold st) v.
Proof.
  intros Hv. unfold Gyro.CalibrateGyroscope, constant_sensor.
  change 128%nat with (S 127).
  rewrite calibrate_loop_constant.
  cbn [Gyro.x_sample Gyro.y_sample Gyro.z_sample Gyro.sumX Gyro.sumY Gyro.sumZ
       Gyro.x_threshold Gyro.y_threshold Gyro.z_threshold
       Gyro.x_raw Gyro.y_raw Gyro.z_raw].
  assert (Hs : Int16.wrap (Z.shiftr (Int16.wrap (0 + Z.of_nat 128 * v)) 7) = v).
  { rewrite (wrap_in_range (0 + Z.of_nat 128 * v))
      by (unfold Int16.in_range, Int16.min_int, Int16.max_int; lia).
    rewrite Z.shiftr_div_pow2 by lia.
    replace (0 + Z.of_nat 128 * v) with (v * 2 ^ 7) by lia.
    rewrite Z.div_mul by lia.
    apply wrap_in_range.
    unfold Int16.in_range, Int16.min_int, Int16.max_int; lia. }
  rewrite Hs. repeat split; reflexivity.
Qed.

(** C7 (the code departs from the claim).  On the constant stream 256,
    from the state at program start, the 16-bit sum wraps to -32768 and
    the bias is -256, not 256; on the constant stream -1 the threshold
    stays at its initial 0, the maximum never having been seeded with the
    least value of the type. *)
Theorem calibration_constant_256 :
  Gyro.x_sample (Gyro.CalibrateGyroscope (constant_sensor 256 256 256) 0 Gyro.gyro0)
  = -256 /\
  Gyro.x_threshold
    (Gyro.CalibrateGyroscope (constant_sensor (-1) (-1) (-1)) 0 Gyro.gyro0)
  = 0.
Proof. split; vm_compute; reflexivity. Qed.

(** ** Initialisation *)

Lemma calibrate_loop_sensitivity (sensor : Gyro.Sensor) (n k : nat)
    (acc : Gyro.CalibSums) (st : Gyro.GyroState) :
  Gyro.sensitivity (snd (Gyro.calibrate_loop n k sensor acc st))
  = Gyro.sensitivity st.
Proof.
  revert k acc st. induction n as [ | n IH ]; intros k acc st; [ reflexivity | ].
  cbn [Gyro.calibrate_loop].
  destruct (Gyro.calibrate_step (sensor k) acc st) as [acc' st'] eqn:E.
  rewrite IH. unfold Gyro.calibrate_step in E. now inversion E.
Qed.

Lemma calibrate_sensitivity (sensor : Gyro.Sensor) (k : nat)
    (st : Gyro.GyroState) :
  Gyro.sensitivity (Gyro.CalibrateGyroscope sensor k st) = Gyro.sensitivity st.
Proof.
  unfold Gyro.CalibrateGyroscope.
  pose proof (calibrate_loop_sensitivity sensor 128 k (Gyro.mkCalib 0 0 0) st) as H.
  destruct (Gyro.calibrate_loop 128 k sensor (Gyro.mkCalib 0 0 0) st) as [acc st'].
  exact H.
Qed.

Lemma select_unrecognized (cfg : SystemConfig) (c4 : Z) (old : float) :
  Gyro.recognized cfg c4 = false -> Gyro.select_sensitivity cfg c4 old = old.
Proof.
  unfold Gyro.recognized, Gyro.select_sensitivity. intros H.
  destruct (c4 =? FULL_SCALE_245 cfg); [ discriminate H | ].
  destruct (c4 =? FULL_SCALE_500 cfg); [ discriminate H | ].
  destruct (c4 =? FULL_SCALE_2000 cfg); [ discriminate H | ].
  destruct (c4 =? FULL_SCALE_2000_ALT cfg); [ discriminate H | ].
  reflexivity.
Qed.

(** C8, the claim as stated fails: after an initialisation for the 500 dps
    range, an initialisation with the unrecognized selector 255 ends in
    the very state an initialisation with the recognized selector ends
    in, with the sensitivity of the 500 dps range in use: nothing tells
    the caller of the configuration error. *)
Lemma unrecognized_range_not_reported :
  Gyro.recognized example_config 255 = false /\
  Gyro.InitiateGyroscope example_config (init_with 255)
    (constant_sensor 3 (-2) 1) 0 initialised_500
  = Gyro.InitiateGyroscope example_config (init_with 16)
      (constant_sensor 3 (-2) 1) 0 initialised_500 /\
  Gyro.sensitivity
    (Gyro.InitiateGyroscope example_config (init_with 255)
       (constant_sensor 3 (-2) 1) 0 initialised_500)
  = SENSITIVITY_500 example_config.
Proof. split; [ | split ]; vm_compute; reflexivity. Qed.

(** C8, amended.  An initialisation whose selector is not recognized
    reports nothing: it keeps the sensitivity the state had before the
    call and calibrates as usual, so that its outcome is the outcome of
    the calibration alone. *)
Theorem unrecognized_range_keeps_sensitivity
    (cfg : SystemConfig) (p : Gyro.Gyroscope_Init_Parameters)
    (sensor : Gyro.Sensor) (k : nat) (st : Gyro.GyroState) :
  Gyro.recognized cfg (Gyro.conf4 p) = false ->
  Gyro.InitiateGyroscope cfg p sensor k st = Gyro.CalibrateGyroscope sensor k st /\
  Gyro.sensitivity (Gyro.InitiateGyroscope cfg p sensor k st)
  = Gyro.sensitivity st.
Proof.
  intros Hun. unfold Gyro.InitiateGyroscope.
  rewrite (select_unrecognized cfg (Gyro.conf4 p) (Gyro.sensitivity st) Hun).
  assert (Hst : Gyro.set_sensitivity (Gyro.sensitivity st) st = st)
    by (destruct st; reflexivity).
  rewrite Hst. split; [ reflexivity | apply calibrate_sensitivity ].
Qed.

Lemma unrecognized_range_keeps_sensitivity_witness :
  Gyro.recognized example_config 255 = false /\
  Gyro.sensitivity
    (Gyro.InitiateGyroscope example_config (init_with 255)
       (constant_sensor 3 (-2) 1) 0 Gyro.gyro0)
  = zero.
Proof.
  split; [ reflexivity | ].
  apply (unrecognized_range_keeps_sensitivity example_config (init_with 255)
           (constant_sensor 3 (-2) 1) 0%nat Gyro.gyro0).
  reflexivity.
Defined.

(** ** The moving-average filter *)

Section MovingAverage.
Import Main.

Lemma filter0_well_formed : well_formed filter0.
Proof. split; [ unfold WINDOW_SIZE; cbn; lia | reflexivity ]. Qed.

(** A push on a well-formed state reads inside the window and leaves a
    well-formed state. *)
Lemma push_well_formed (v : float) (f : FilterState) :
  well_formed f ->
  exists o f1, movingAverageFilter v f = Some (o, f1) /\ well_formed f1.
Proof.
  intros [Hi Hl]. unfold movingAverageFilter.
  destruct (lookup_lt_is_Some_2 (buffer f) (index f)) as [old Hold];
    [ rewrite Hl; exact Hi | ].
  rewrite Hold. eexists _, _. split; [ reflexivity | ].
  split; cbn [index buffer].
  - apply Nat.mod_upper_bound. discriminate.
  - rewrite length_insert. exact Hl.
Qed.

Lemma push_all_well_formed (vs : list float) (f : FilterState) :
  well_formed f ->
  exists os f2, push_all vs f = Some (os, f2) /\ well_formed f2 /\
                length os = length vs.
Proof.
  revert f. induction vs as [ | v vs IH ]; intros f Hf.
  - exists [], f. repeat split; apply Hf.
  - destruct (push_well_formed v f Hf) as (o & f1 & Hp & Hf1).
    destruct (IH f1 Hf1) as (os & f2 & Hr & Hf2 & Hlen).
    exists (o :: os), f2. cbn [push_all]. rewrite Hp. cbn. rewrite Hr. cbn.
    repeat split; try apply Hf2. now rewrite Hlen.
Qed.

Lemma Qsum_insert (w : list float) (i : nat) (old v : float) :
  w !! i = Some old ->
  (Qsum (<[i := v]> w) == Qsum w - to_Q old + to_Q v)%Q.
Proof.
  revert i. induction w as [ | x w IH ]; intros i Hi; [ discriminate Hi | ].
  destruct i as [ | i ].
  - injection Hi as ->.
    change (to_Q v + Qsum w == to_Q old + Qsum w - to_Q old + to_Q v)%Q.
    lra.
  - change (w !! i = Some old) in Hi.
    change (to_Q x + Qsum (<[i := v]> w)
            == to_Q x + Qsum w - to_Q old + to_Q v)%Q.
    rewrite (IH i Hi). lra.
Qed.

Lemma exact_add_sound (x y : float) :
  exact_add x y = true -> (to_Q (add x y) == to_Q x + to_Q y)%Q.
Proof.
  unfold exact_add. intros H. apply andb_prop in H as [_ H].
  now apply Qeq_bool_iff.
Qed.

Lemma exact_sub_sound (x y : float) :
  exact_sub x y = true -> (to_Q (sub x y) == to_Q x - to_Q y)%Q.
Proof.
  unfold exact_sub. intros H. apply andb_prop in H as [_ H].
  now apply Qeq_bool_iff.
Qed.

Lemma push_sum_matches (v o : float) (f f1 : FilterState) :
  movingAverageFilter v f = Some (o, f1) ->
  exact_push v f = true ->
  sum_matches f -> sum_matches f1.
Proof.
  unfold movingAverageFilter, exact_push, sum_matches.
  destruct (buffer f !! index f) as [old | ] eqn:Hold; [ | discriminate ].
  intros Hp Hex Hinv. injection Hp as _ <-. cbn [sum buffer].
  apply andb_prop in Hex as [Hs Ha].
  rewrite (exact_add_sound _ _ Ha), (exact_sub_sound _ _ Hs).
  rewrite (Qsum_insert _ _ old v Hold), Hinv. reflexivity.
Qed.

Lemma push_all_sum_matches (vs os : list float) (f f2 : FilterState) :
  push_all vs f = Some (os, f2) ->
  exact_run vs f = true ->
  sum_matches f -> sum_matches f2.
Proof.
  revert os f. induction vs as [ | v vs IH ]; intros os f Hp Hex Hinv.
  - injection Hp as _ <-. exact Hinv.
  - cbn [push_all] in Hp. cbn [exact_run] in Hex.
    apply andb_prop in Hex as [Hex1 Hex2].
    destruct (movingAverageFilter v f) as [[o f1] | ] eqn:Hm;
      [ | discriminate ].
    cbn in Hp.
    destruct (push_all vs f1) as [[os' f2'] | ] eqn:Hr; [ | discriminate ].
    cbn in Hp. injection Hp as _ <-.
    apply (IH os' f1 Hr Hex2).
    exact (push_sum_matches v o f f1 Hm Hex1 Hinv).
Qed.

Lemma push_output (v o : float) (f f1 : FilterState) :
  movingAverageFilter v f = Some (o, f1) ->
  o = div (sum f1) (of_Z (Z.of_nat WINDOW_SIZE)).
Proof.
  unfold movingAverageFilter.
  destruct (buffer f !! index f); [ | discriminate ].
  intros H. injection H as <- <-. reflexivity.
Qed.

Lemma push_all_last (vs os : list float) (f f2 : FilterState) :
  push_all vs f = Some (os, f2) -> vs <> [] ->
  last os = Some (div (sum f2) (of_Z (Z.of_nat WINDOW_SIZE))).
Proof.
  revert os f. induction vs as [ | v vs IH ]; intros os f Hp Hne;
    [ contradiction | ].
  cbn [push_all] in Hp.
  destruct (movingAverageFilter v f) as [[o f1] | ] eqn:Hm; [ | discriminate ].
  cbn in Hp.
  destruct (push_all vs f1) as [[os' f2'] | ] eqn:Hr; [ | discriminate ].
  cbn in Hp. injection Hp as <- <-.
  destruct vs as [ | v' vs ].
  - injection Hr as <- <-. cbn. f_equal. exact (push_output v o f f1 Hm).
  - assert (Hl : last os' = Some (div (sum f2') (of_Z (Z.of_nat WINDOW_SIZE))))
      by (apply (IH os' f1 Hr); discriminate).
    destruct os' as [ | o' os' ]; [ discriminate Hl | ].
    exact Hl.
Qed.

(** After [WINDOW_SIZE] pushes of [v] from the initial state the window
    holds [v] everywhere. *)
Lemma push_all_identical_window (v : float) (os : list float)
    (f : FilterState) :
  push_all (replicate WINDOW_SIZE v) filter0 = Some (os, f) ->
  buffer f = replicate WINDOW_SIZE v.
Proof.
  unfold WINDOW_SIZE, filter0.
  cbn -[add sub div of_Z]. intros H. injection H as _ <-. reflexivity.
Qed.

End MovingAverage.

(** C10, the claim as stated fails.  After the pushes 2^24, 1, 0, 0, 0, 0
    the window holds a single 1 and the running sum is 0: the 1 was
    rounded away when it was added to 2^24.  And after five pushes of the
    largest finite number the running sum has overflowed and the returned
    average is infinite. *)
Lemma running_sum_drifts :
  (exists os,
     push_all drift_inputs Main.filter0 =
     Some (os, Main.mkFilter [zero; f1; zero; zero; zero] 1 zero)) /\
  window_sum [zero; f1; zero; zero; zero] = f1 /\
  ~ sum_matches (Main.mkFilter [zero; f1; zero; zero; zero] 1 zero) /\
  (exists os f,
     push_all (replicate WINDOW_SIZE max_float) Main.filter0 = Some (os, f) /\
     last os = Some (S754_infinity false)).
Proof.
  split; [ eexists; vm_compute; reflexivity | ].
  split; [ vm_compute; reflexivity | ].
  split; [ unfold sum_matches; vm_compute; discriminate | ].
  eexists _, _. split; vm_compute; reflexivity.
Qed.

(** C10, amended.  From the zero-initialised state every sequence of
    pushes goes through, returns one average per push, keeps a window of
    [WINDOW_SIZE] entries and an index below [WINDOW_SIZE].  When every
    subtraction and addition of the run is exact, the running sum denotes
    the sum of the window; and when [WINDOW_SIZE] identical values [v] are
    pushed with exact arithmetic, the final division included, the
    returned average denotes [v]. *)
Theorem moving_average_invariant (vs : list float) (v : float) :
  (exists os f,
     push_all vs Main.filter0 = Some (os, f) /\
     length os = length vs /\
     (Main.index f < WINDOW_SIZE)%nat /\
     length (Main.buffer f) = WINDOW_SIZE /\
     (exact_run vs Main.filter0 = true -> sum_matches f)) /\
  (exact_run (replicate WINDOW_SIZE v) Main.filter0 = true ->
   exists os f o,
     push_all (replicate WINDOW_SIZE v) Main.filter0 = Some (os, f) /\
     last os = Some o /\
     (exact_div (Main.sum f) (of_Z (Z.of_nat WINDOW_SIZE)) = true ->
      (to_Q o == to_Q v)%Q)).
Proof.
  assert (H0 : sum_matches Main.filter0) by (vm_compute; reflexivity).
  split.
  - destruct (push_all_well_formed vs Main.filter0 filter0_well_formed)
      as (os & f & Hp & [Hi Hl] & Hlen).
    exists os, f. repeat (split; [ assumption | ]).
    intros Hex. exact (push_all_sum_matches vs os Main.filter0 f Hp Hex H0).
  - intros Hex.
    destruct (push_all_well_formed (replicate WINDOW_SIZE v) Main.filter0
                filter0_well_formed) as (os & f & Hp & _ & _).
    exists os, f, (div (Main.sum f) (of_Z (Z.of_nat WINDOW_SIZE))).
    split; [ exact Hp | ].
    split; [ apply (push_all_last _ _ _ _ Hp); discriminate | ].
    intros Hdiv.
    pose proof (push_all_sum_matches _ os Main.filter0 f Hp Hex H0) as Hsum.
    unfold sum_matches in Hsum.
    rewrite (push_all_identical_window v os f Hp) in Hsum.
    unfold exact_div in Hdiv. apply andb_prop in Hdiv as [_ Hdiv].
    apply Qeq_bool_iff in Hdiv.
    assert (H5 : (to_Q (of_Z (Z.of_nat WINDOW_SIZE)) == 5)%Q)
      by (vm_compute; reflexivity).
    rewrite H5, Hsum in Hdiv.
    change (Qsum (replicate WINDOW_SIZE v))
      with (to_Q v + (to_Q v + (to_Q v + (to_Q v + (to_Q v + 0)))))%Q in Hdiv.
    lra.
Qed.

Lemma moving_average_invariant_witness :
  exact_run (map of_Z [1; 2; 3; 4; 5; 6]) Main.filter0 = true /\
  exact_run (replicate WINDOW_SIZE (of_Z 3)) Main.filter0 = true /\
  (exists os f,
     push_all (map of_Z [1; 2; 3; 4; 5; 6]) Main.filter0 = Some (os, f) /\
     sum_matches f) /\
  (exists os f o,
     push_all (replicate WINDOW_SIZE (of_Z 3)) Main.filter0 = Some (os, f) /\
     last os = Some o /\ (to_Q o == to_Q (of_Z 3))%Q).
Proof.
  split; [ vm_compute; reflexivity | ].
  split; [ vm_compute; reflexivity | ].
  destruct (moving_average_invariant (map of_Z [1; 2; 3; 4; 5; 6]) (of_Z 3))
    as [(os & f & Hp & _ & _ & _ & Hsum) Hconst].
  split.
  - exists os, f. split; [ exact Hp | ].
    apply Hsum. vm_compute. reflexivity.
  - destruct Hconst as (os' & f' & o & Hp' & Hlast & Hval);
      [ vm_compute; reflexivity | ].
    exists os', f', o. split; [ exact Hp' | ]. split; [ exact Hlast | ].
    apply Hval.
    vm_compute in Hp'. injection Hp' as _ <-. vm_compute. reflexivity.
Defined.

(** ** Trimming *)

Section Trimming.
Import Utilities.
#[local] Open Scope nat_scope.

(** The forward scan runs off the end exactly when no sample is
    active. *)
Lemma scan_forward_none (rest : list Sample) (k : nat) :
  Forall (fun p => below_threshold p = true) rest ->
  scan_forward rest k = None.
Proof.
  intros H. revert k.
  induction H as [ | q rest Hq _ IH ]; intros k; [ reflexivity | ].
  cbn [scan_forward]. rewrite Hq. apply IH.
Qed.

Lemma scan_forward_some (rest : list Sample) (k i : nat) :
  scan_forward rest k = Some i ->
  exists j p, i = k + j /\ rest !! j = Some p /\
              below_threshold p = false /\
              Forall (fun q => below_threshold q = true) (take j rest).
Proof.
  revert k. induction rest as [ | q rest IH ]; intros k H;
    cbn [scan_forward] in H; [ discriminate H | ].
  destruct (below_threshold q) eqn:Eq.
  - apply IH in H as (j & p & -> & Hj & Hp & Hall).
    exists (S j), p. split; [ lia | ]. split; [ exact Hj | ].
    split; [ exact Hp | ]. cbn [take]. now constructor.
  - injection H as <-. exists 0, q. split; [ lia | ].
    split; [ reflexivity | ]. split; [ exact Eq | constructor ].
Qed.

Lemma scan_forward_defined (rest : list Sample) (k : nat) :
  Exists (fun p => below_threshold p = false) rest ->
  exists i, scan_forward rest k = Some i.
Proof.
  intros H. revert k.
  induction H as [ q rest Hq | q rest _ IH ]; intros k; cbn [scan_forward].
  - rewrite Hq. eauto.
  - destruct (below_threshold q); eauto.
Qed.

Lemma scan_backward_some (data : list Sample) (k r : nat) :
  scan_backward data k = Some r ->
  r <= k /\
  (exists p, data !! r = Some p /\ below_threshold p = false) /\
  (forall j p, r < j <= k -> data !! j = Some p -> below_threshold p = true).
Proof.
  induction k as [ | k IH ]; cbn [scan_backward].
  - destruct (data !! 0) as [q | ] eqn:Hq; [ | intros H; discriminate H ].
    destruct (below_threshold q) eqn:Eq; intros H; [ discriminate H | ].
    injection H as <-. split; [ lia | ].
    split; [ eauto | ]. intros j p Hj. lia.
  - destruct (data !! S k) as [q | ] eqn:Hq; [ | intros H; discriminate H ].
    destruct (below_threshold q) eqn:Eq; intros H.
    + apply IH in H as (Hle & Hex & Hall).
      split; [ lia | ]. split; [ exact Hex | ].
      intros j p Hj Hp. destruct (Nat.eq_dec j (S k)) as [-> | Hne].
      * congruence.
      * apply (Hall j p); [ lia | exact Hp ].
    + injection H as <-. split; [ lia | ].
      split; [ eauto | ]. intros j p Hj. lia.
Qed.

Lemma scan_backward_defined (data : list Sample) (k i : nat) (p : Sample) :
  i <= k -> k < length data ->
  data !! i = Some p -> below_threshold p = false ->
  exists r, scan_backward data k = Some r.
Proof.
  intros Hik Hk Hi Hp. induction k as [ | k IH ]; cbn [scan_backward].
  - assert (i = 0) as -> by lia. rewrite Hi, Hp. eauto.
  - destruct (lookup_lt_is_Some_2 data (S k) Hk) as [q Hq]. rewrite Hq.
    destruct (below_threshold q) eqn:Eq; [ | eauto ].
    apply IH; [ | lia ].
    destruct (Nat.eq_dec i (S k)) as [-> | Hne]; [ congruence | lia ].
Qed.

(** The copying loop, started with the write pointer strictly below the
    read pointer: it moves the samples from [lptr] to [rptr] down to
    [replace_ptr] and stops with the read pointer past [rptr]. *)
Lemma shift_loop_spec (n : nat) (data : list Sample) (rp lp r : nat) :
  rp < lp -> lp <= S r -> r < length data -> S r - lp <= n ->
  exists data',
    shift_loop n data rp lp r = Some (data', rp + (S r - lp), S r) /\
    length data' = length data /\
    take (rp + (S r - lp)) data' =
      take rp data ++ take (S r - lp) (drop lp data).
Proof.
  revert data rp lp.
  induction n as [ | n IH ]; intros data rp lp Hrl Hlr Hr Hn.
  - assert (lp = S r) as -> by lia.
    exists data. cbn [shift_loop].
    replace (rp =? S r) with false by (symmetry; apply Nat.eqb_neq; lia).
    replace (S r <=? r) with false by (symmetry; apply Nat.leb_gt; lia).
    cbn [negb andb]. rewrite Nat.sub_diag.
    rewrite Nat.add_0_r, take_0, app_nil_r. auto.
  - cbn [shift_loop].
    replace (rp =? lp) with false by (symmetry; apply Nat.eqb_neq; lia).
    cbn [negb andb].
    destruct (Nat.leb_spec lp r) as [Hle | Hgt].
    + destruct (lookup_lt_is_Some_2 data lp) as [v Hv]; [ lia | ].
      rewrite Hv.
      destruct (IH (<[rp := v]> data) (S rp) (S lp)) as (data' & He & Hl & Ht);
        [ lia | lia | rewrite length_insert; lia | lia | ].
      exists data'.
      replace (rp + (S r - lp)) with (S rp + (S r - S lp)) by lia.
      split; [ exact He | ].
      split; [ rewrite Hl; apply length_insert | ].
      rewrite Ht.
      rewrite (take_S_r (<[rp := v]> data) rp v)
        by (apply list_lookup_insert_eq; lia).
      rewrite take_insert_ge by lia.
      rewrite drop_insert_lt by lia.
      replace (S r - lp) with (S (S r - S lp)) by lia.
      rewrite (drop_S data v lp Hv). cbn [take].
      now rewrite <- app_assoc.
    + assert (lp = S r) as -> by lia.
      exists data. rewrite Nat.sub_diag.
      rewrite Nat.add_0_r, take_0, app_nil_r. auto.
Qed.

Lemma shift_loop_same (n : nat) (data : list Sample) (p r : nat) :
  shift_loop n data p p r = Some (data, p, p).
Proof. destruct n; cbn [shift_loop]; now rewrite Nat.eqb_refl. Qed.

(** Once both scans have stopped inside the vector, the result is the
    slice between the two bounds. *)
Lemma trim_gyro_data_slice (data : list Sample) (l r : nat) :
  scan_forward data 0 = Some l ->
  scan_backward data (length data - 1) = Some r ->
  l <= r -> r < length data ->
  trim_gyro_data data = Some (take (S r - l) (drop l data)).
Proof.
  intros Hf Hb Hlr Hr. unfold trim_gyro_data. rewrite Hf, Hb.
  replace (l =? length data) with false by (symmetry; apply Nat.eqb_neq; lia).
  destruct l as [ | l ].
  - rewrite shift_loop_same.
    replace (r <? 0) with false by (symmetry; apply Nat.ltb_ge; lia).
    now rewrite drop_0, Nat.sub_0_r.
  - destruct (shift_loop_spec (length data) data 0 (S l) r)
      as (data' & He & _ & Ht); [ lia | lia | lia | lia | ].
    rewrite He. cbn [Nat.add] in Ht |- *.
    replace (r <? S r) with true by (symmetry; apply Nat.ltb_lt; lia).
    now rewrite Ht, take_0.
Qed.

(** What a completed trim returns: the samples from the first active
    one to the last active one. *)
Lemma trim_gyro_data_some (data t : list Sample) :
  trim_gyro_data data = Some t ->
  exists l r pl pr,
    l <= r /\ r < length data /\
    data !! l = Some pl /\ below_threshold pl = false /\
    data !! r = Some pr /\ below_threshold pr = false /\
    Forall (fun q => below_threshold q = true) (take l data) /\
    Forall (fun q => below_threshold q = true) (drop (S r) data) /\
    t = take (S r - l) (drop l data).
Proof.
  intros Ht.
  destruct (scan_forward data 0) as [l | ] eqn:Hf;
    [ | unfold trim_gyro_data in Ht; rewrite Hf in Ht; discriminate Ht ].
  destruct (scan_forward_some data 0 l Hf) as (j & pl & Hj & Hl & Hpl & Hbefore).
  cbn [Nat.add] in Hj. subst j.
  pose proof (lookup_lt_Some data l pl Hl) as Hlen.
  destruct (scan_backward data (length data - 1)) as [r | ] eqn:Hb.
  2:{ unfold trim_gyro_data in Ht. rewrite Hf, Hb in Ht.
      replace (l =? length data) with false in Ht
        by (symmetry; apply Nat.eqb_neq; lia).
      discriminate Ht. }
  destruct (scan_backward_some data _ r Hb) as (Hrk & (pr & Hr & Hpr) & Hafter).
  assert (Hlr : l <= r).
  { destruct (Nat.le_gt_cases l r) as [ | Hgt ]; [ assumption | ].
    rewrite (Hafter l pl) in Hpl; [ discriminate Hpl | lia | exact Hl ]. }
  pose proof (lookup_lt_Some data r pr Hr) as Hrlen.
  rewrite (trim_gyro_data_slice data l r Hf Hb Hlr Hrlen) in Ht.
  injection Ht as <-.
  exists l, r, pl, pr. repeat (split; [ assumption | ]).
  split; [ | reflexivity ].
  apply Forall_lookup. intros i q Hi. rewrite lookup_drop in Hi.
  apply (Hafter (S r + i) q); [ | exact Hi ].
  apply lookup_lt_Some in Hi. lia.
Qed.

(** With an active sample in the vector the trim completes, and the
    size of what it returns is right - left + 1. *)
Lemma trim_gyro_data_active (data : list Sample) :
  Exists (fun p => below_threshold p = false) data ->
  exists l r t,
    trim_gyro_data data = Some t /\ l <= r /\ r < length data /\
    t = take (S r - l) (drop l data) /\ length t = r - l + 1.
Proof.
  intros Hex.
  destruct (scan_forward_defined data 0 Hex) as [l Hf].
  destruct (scan_forward_some data 0 l Hf) as (j & pl & Hj & Hl & Hpl & _).
  cbn [Nat.add] in Hj. subst j.
  pose proof (lookup_lt_Some data l pl Hl) as Hlen.
  destruct (scan_backward_defined data (length data - 1) l pl) as [r Hb];
    [ lia | lia | exact Hl | exact Hpl | ].
  destruct (scan_backward_some data _ r Hb) as (Hrk & (pr & Hr & Hpr) & Hafter).
  assert (Hlr : l <= r).
  { destruct (Nat.le_gt_cases l r) as [ | Hgt ]; [ assumption | ].
    rewrite (Hafter l pl) in Hpl; [ discriminate Hpl | lia | exact Hl ]. }
  pose proof (lookup_lt_Some data r pr Hr) as Hrlen.
  exists l, r, (take (S r - l) (drop l data)).
  split; [ now apply trim_gyro_data_slice | ].
  repeat (split; [ assumption || reflexivity | ]).
  rewrite length_take, length_drop. lia.
Qed.

Lemma scan_backward_hit (data : list Sample) (k : nat) (p : Sample) :
  data !! k = Some p -> below_threshold p = false ->
  scan_backward data k = Some k.
Proof. intros Hk Hp. destruct k; cbn [scan_backward]; now rewrite Hk, Hp. Qed.

(** Where the trim completes, trimming its result changes nothing. *)
Lemma trim_gyro_data_idempotent (data t : list Sample) :
  trim_gyro_data data = Some t -> trim_gyro_data t = Some t.
Proof.
  intros Ht.
  destruct (trim_gyro_data_some data t Ht)
    as (l & r & pl & pr & Hlr & Hr & Hl & Hpl & Hpr' & Hpr & _ & _ & ->).
  set (t := take (S r - l) (drop l data)).
  assert (Hlen : length t = S (r - l)).
  { subst t. rewrite length_take, length_drop. lia. }
  assert (H0 : t !! 0 = Some pl).
  { subst t. rewrite lookup_take_lt by lia. rewrite lookup_drop.
    now rewrite Nat.add_0_r. }
  assert (Hlast : t !! (r - l) = Some pr).
  { subst t. rewrite lookup_take_lt by lia. rewrite lookup_drop.
    now replace (l + (r - l)) with r by lia. }
  assert (Hf : scan_forward t 0 = Some 0).
  { destruct t as [ | q t' ]; [ discriminate H0 | ].
    injection H0 as ->. cbn [scan_forward]. now rewrite Hpl. }
  assert (Hb : scan_backward t (length t - 1) = Some (r - l)).
  { replace (length t - 1) with (r - l) by lia.
    now apply (scan_backward_hit t (r - l) pr). }
  rewrite (trim_gyro_data_slice t 0 (r - l) Hf Hb) by lia.
  rewrite drop_0, Nat.sub_0_r. f_equal. apply take_ge. lia.
Qed.

End Trimming.

(** C4 (the code departs from the claim).  On a sequence without an
    active sample, the empty one included, the forward scan walks past
    the last element and reads there: the trim does not stay in bounds
    and delivers no empty sequence.  The test against [end()] that is
    meant to catch the case comes after the loop that has already read
    out of bounds. *)
Theorem trim_no_active_out_of_bounds (data : list Sample) :
  Forall (fun p => Utilities.below_threshold p = true) data ->
  Utilities.trim_gyro_data data = None.
Proof.
  intros H. unfold Utilities.trim_gyro_data.
  now rewrite (scan_forward_none data 0 H).
Qed.

Lemma trim_no_active_out_of_bounds_witness :
  Forall (fun p => Utilities.below_threshold p = true) still_recording /\
  Utilities.trim_gyro_data still_recording = None.
Proof.
  assert (H : Forall (fun p => Utilities.below_threshold p = true)
                     still_recording)
    by (repeat constructor).
  split; [ exact H | exact (trim_no_active_out_of_bounds still_recording H) ].
Defined.

(** The empty recording and the recording of a device at rest, through a
    whole pass of the session loop on a record request: the pass does not
    complete. *)
Lemma trim_empty_out_of_bounds : Utilities.trim_gyro_data [] = None.
Proof. reflexivity. Qed.

Lemma record_at_rest_out_of_bounds :
  Main.gyroscope_thread_iteration example_config record_requested
    (constant_sensor 3 (-2) 1) 60 Main.session0 = None.
Proof. vm_compute. reflexivity. Qed.

(** C9 (the code departs from the claim).  Trimming is to be idempotent on
    every sequence.  On the one-sample sequence at rest the first trim
    already reads out of bounds, so that there is no trimmed sequence to
    trim again or to compare with. *)
Theorem trim_twice_at_rest_out_of_bounds :
  Utilities.trim_gyro_data [origin] = None /\ trim_twice [origin] = None.
Proof. split; reflexivity. Qed.


(** * Further properties of the sources *)

(** ** Correlation: symmetry and degenerate inputs *)

Lemma mul_comm (x y : float) : mul x y = mul y x.
Proof.
  unfold mul, SFmul.
  destruct x as [sx | sx | | sx mx ex], y as [sy | sy | | sy my ey];
    try reflexivity; try (now rewrite xorb_comm).
  now rewrite xorb_comm, Pos.mul_comm, Z.add_comm.
Qed.

Lemma has_variation_sym (a b : list float) :
  Utilities.has_variation a b = Utilities.has_variation b a.
Proof.
  revert b. induction a as [ | x a IH ]; intros [ | y b ]; try reflexivity.
  cbn [Utilities.has_variation]. now rewrite orb_comm, IH.
Qed.

Lemma sum_loop_swap (a b : list float) (s : Utilities.Sums) :
  Utilities.sum_loop (swap_sums s) b a = swap_sums (Utilities.sum_loop s a b).
Proof.
  revert b s. induction a as [ | x a IH ]; intros [ | y b ] s; try reflexivity.
  cbn [Utilities.sum_loop]. rewrite <- IH. f_equal.
  unfold Utilities.sum_step, swap_sums. cbn. f_equal. apply f_equal, mul_comm.
Qed.

Lemma correlation_sym (a b : list float) :
  Utilities.correlation a b = Utilities.correlation b a.
Proof.
  unfold Utilities.correlation.
  rewrite (Nat.eqb_sym (length b) (length a)).
  destruct (Nat.eqb_spec (length a) (length b)) as [Hlen | _];
    [ | reflexivity ].
  cbn [negb]. rewrite (has_variation_sym b a).
  destruct (Utilities.has_variation a b); [ | reflexivity ].
  cbn [negb]. rewrite <- Hlen.
  rewrite (sum_loop_swap a b Utilities.sums0 : Utilities.sum_loop
             Utilities.sums0 b a = _).
  cbn [swap_sums Utilities.sum_a Utilities.sum_b
    Utilities.sum_ab Utilities.sq_sum_a Utilities.sq_sum_b].
  set (s := Utilities.sum_loop Utilities.sums0 a b).
  rewrite (mul_comm (Utilities.sum_b s) (Utilities.sum_a s)).
  rewrite (mul_comm (sub (Utilities.sq_sum_b s) _) (sub (Utilities.sq_sum_a s) _)).
  reflexivity.
Qed.

Lemma calculate_result_sym (vec1 vec2 : list Sample) :
  fst (fst (Utilities.calculateCorrelationVectors vec1 vec2)) =
  fst (fst (Utilities.calculateCorrelationVectors vec2 vec1)).
Proof.
  unfold Utilities.calculateCorrelationVectors. cbn [fst].
  rewrite (Nat.eqb_sym (length vec2) (length vec1)).
  rewrite (Nat.min_comm (length vec2) (length vec1)).
  destruct (negb (length vec1 =? length vec2)%nat);
    f_equal; apply correlation_sym.
Qed.

(** X1.  [correlation] is symmetric in its two arguments, bit for bit
    and on all inputs, degenerate ones included; so are the three
    correlations [calculateCorrelationVectors] returns. *)
Theorem correlation_symmetric (a b : list float) (vec1 vec2 : list Sample) :
  Utilities.correlation a b = Utilities.correlation b a /\
  fst (fst (Utilities.calculateCorrelationVectors vec1 vec2)) =
  fst (fst (Utilities.calculateCorrelationVectors vec2 vec1)).
Proof. split; [ apply correlation_sym | apply calculate_result_sym ]. Qed.

Lemma is_zero_eqb (x : float) : is_zero x = true -> eqb x zero = true.
Proof. destruct x as [ [ | ] | | | ]; now intros H. Qed.

Lemma all_zero_eqb (a : list float) :
  Forall (fun x => is_zero x = true) a ->
  Forall (fun x => eqb x zero = true) a.
Proof.
  intros H. induction H as [ | x a Hx _ IH ]; constructor;
    [ now apply is_zero_eqb | exact IH ].
Qed.

(** X2.  The two input errors [correlation] answers with NaN: sequences
    of different sizes, and sequences in which every value is a zero of
    either sign (two empty sequences among them). *)
Theorem correlation_degenerate_nan (a b : list float) :
  length a <> length b \/
  (Forall (fun x => is_zero x = true) a /\
   Forall (fun y => is_zero y = true) b) ->
  Utilities.correlation a b = NaN.
Proof.
  intros [Hlen | [Ha Hb]].
  - now apply correlation_length_mismatch.
  - apply correlation_all_zero; now apply all_zero_eqb.
Qed.

Lemma correlation_degenerate_nan_witness :
  Utilities.correlation [f1; f2] [f1] = NaN /\
  Utilities.correlation [S754_zero true; zero] [zero; S754_zero true] = NaN /\
  Utilities.correlation [] [] = NaN.
Proof.
  split; [ | split ].
  - apply (correlation_degenerate_nan [f1; f2] [f1]). left. discriminate.
  - apply (correlation_degenerate_nan [S754_zero true; zero]
             [zero; S754_zero true]).
    right. split; repeat constructor.
  - apply (correlation_degenerate_nan [] []). right. split; constructor.
Defined.

(** X3.  [calculateCorrelationVectors] leaves in both of its arguments
    the first [min] samples, [min] being the smaller of the two sizes,
    and each of the three results is the correlation of that axis of the
    two truncated vectors. *)
Theorem calculateCorrelationVectors_truncates (vec1 vec2 : list Sample) :
  let m := Nat.min (length vec1) (length vec2) in
  let out := Utilities.calculateCorrelationVectors vec1 vec2 in
  snd (fst out) = take m vec1 /\
  snd out = take m vec2 /\
  length (snd (fst out)) = m /\ length (snd out) = m /\
  forall i : nat,
    axis i (fst (fst out)) =
    Utilities.correlation (map (axis i) (take m vec1))
                          (map (axis i) (take m vec2)).
Proof.
  intros m out. subst out.
  unfold Utilities.calculateCorrelationVectors, Utilities.resize_down.
  fold m. cbn [fst snd].
  assert (H1 : (if negb (length vec1 =? length vec2)%nat
                then take m vec1 else vec1) = take m vec1).
  { destruct (Nat.eqb_spec (length vec1) (length vec2)) as [E | _];
      [ | reflexivity ].
    cbn [negb]. symmetry. apply take_ge. subst m. lia. }
  assert (H2 : (if negb (length vec1 =? length vec2)%nat
                then take m vec2 else vec2) = take m vec2).
  { destruct (Nat.eqb_spec (length vec1) (length vec2)) as [E | _];
      [ | reflexivity ].
    cbn [negb]. symmetry. apply take_ge. subst m. lia. }
  rewrite H1, H2.
  split; [ reflexivity | ]. split; [ reflexivity | ].
  split; [ rewrite length_take; subst m; lia | ].
  split; [ rewrite length_take; subst m; lia | ].
  intros [ | [ | i ] ]; reflexivity.
Qed.

(** ** Trimming: what a completed trim returns *)

Section TrimResult.
Import Utilities.
#[local] Open Scope nat_scope.

Lemma lookup_active_Exists (data : list Sample) (i : nat) (p : Sample) :
  data !! i = Some p -> below_threshold p = false -> Exists active data.
Proof.
  intros Hi Hp. apply Exists_exists. exists p.
  split; [ exact (list_elem_of_lookup_2 data i p Hi) | exact Hp ].
Qed.

(** X4.  A completed trim cuts the recording in three: what it returns
    lies between a prefix and a suffix made of samples below the
    threshold only, is not empty, and starts and ends with an active
    sample. *)
Theorem trim_returns_active_core (data t : list Sample) :
  trim_gyro_data data = Some t ->
  exists pre post pl pr,
    data = pre ++ t ++ post /\
    Forall (fun q => below_threshold q = true) pre /\
    Forall (fun q => below_threshold q = true) post /\
    head t = Some pl /\ active pl /\
    last t = Some pr /\ active pr.
Proof.
  intros Ht.
  destruct (trim_gyro_data_some data t Ht)
    as (l & r & pl & pr & Hlr & Hr & Hl & Hpl & Hpr' & Hpr & Hpre & Hpost & ->).
  exists (take l data), (drop (S r) data), pl, pr.
  assert (Hlen : length (take (S r - l) (drop l data)) = S (r - l)).
  { rewrite length_take, length_drop. lia. }
  split.
  { rewrite <- (take_drop l data) at 1. f_equal.
    rewrite <- (take_drop (S r - l) (drop l data)) at 1. f_equal.
    rewrite drop_drop. f_equal. lia. }
  split; [ exact Hpre | ]. split; [ exact Hpost | ].
  split; [ | split; [ exact Hpl | ] ].
  { rewrite head_lookup, lookup_take_lt by lia.
    now rewrite lookup_drop, Nat.add_0_r. }
  split; [ | exact Hpr ].
  rewrite last_lookup, Hlen. cbn [pred].
  rewrite lookup_take_lt by lia. rewrite lookup_drop.
  now replace (l + (r - l)) with r by lia.
Qed.

Lemma trim_returns_active_core_witness :
  trim_gyro_data padded_recording
  = Some [sample_of_Z 1 0 0; origin; sample_of_Z 0 2 0] /\
  exists pre post,
    padded_recording =
    pre ++ [sample_of_Z 1 0 0; origin; sample_of_Z 0 2 0] ++ post.
Proof.
  assert (H : trim_gyro_data padded_recording
              = Some [sample_of_Z 1 0 0; origin; sample_of_Z 0 2 0])
    by (vm_compute; reflexivity).
  split; [ exact H | ].
  destruct (trim_returns_active_core padded_recording _ H)
    as (pre & post & _ & _ & Hd & _).
  exists pre, post. exact Hd.
Defined.

(** X5.  The trim completes exactly on the recordings that hold an
    active sample. *)
Theorem trim_completes_iff_active (data : list Sample) :
  (exists t, trim_gyro_data data = Some t) <-> Exists active data.
Proof.
  split.
  - intros [t Ht].
    destruct (trim_gyro_data_some data t Ht)
      as (l & _ & pl & _ & _ & _ & Hl & Hpl & _).
    exact (lookup_active_Exists data l pl Hl Hpl).
  - intros Hex.
    destruct (trim_gyro_data_active data Hex) as (_ & _ & t & Ht & _).
    now exists t.
Qed.

(** X6.  Where the trim completes, a second trim returns the same
    sequence. *)
Theorem trim_idempotent_where_defined (data t : list Sample) :
  trim_gyro_data data = Some t ->
  trim_gyro_data t = Some t /\ trim_twice data = Some t.
Proof.
  intros Ht. pose proof (trim_gyro_data_idempotent data t Ht) as Hi.
  split; [ exact Hi | ]. unfold trim_twice. rewrite Ht. exact Hi.
Qed.

Lemma trim_idempotent_where_defined_witness :
  trim_twice padded_recording
  = Some [sample_of_Z 1 0 0; origin; sample_of_Z 0 2 0].
Proof.
  apply (trim_idempotent_where_defined padded_recording).
  vm_compute. reflexivity.
Defined.

End TrimResult.

(** ** Calibration: thresholds, bias, constant streams *)

Lemma wrap_range (z : Z) : Int16.in_range (Int16.wrap z).
Proof.
  unfold Int16.in_range, Int16.min_int, Int16.max_int, Int16.wrap.
  pose proof (Z.mod_pos_bound (z + 32768) 65536). lia.
Qed.

Lemma calibrate_loop_S (sensor : Gyro.Sensor) (n k : nat)
    (acc : Gyro.CalibSums) (st : Gyro.GyroState) :
  Gyro.calibrate_loop (S n) k sensor acc st =
  Gyro.calibrate_loop n (S k) sensor
    (fst (Gyro.calibrate_step (sensor k) acc st))
    (snd (Gyro.calibrate_step (sensor k) acc st)).
Proof. reflexivity. Qed.

Lemma calibrate_step_threshold (rd : Gyro.Gyroscope_RawData)
    (acc : Gyro.CalibSums) (st : Gyro.GyroState) (a : Axis) :
  threshold_of a (snd (Gyro.calibrate_step rd acc st)) =
  Z.max (threshold_of a st) (raw_of a rd).
Proof. destruct a; reflexivity. Qed.

(** The running maximum over [n] readings. *)
Lemma calibrate_loop_thresholds (sensor : Gyro.Sensor) (a : Axis) (n k : nat)
    (acc : Gyro.CalibSums) (st : Gyro.GyroState) :
  let st' := snd (Gyro.calibrate_loop n k sensor acc st) in
  threshold_of a st <= threshold_of a st' /\
  (forall i, (i < n)%nat -> raw_of a (sensor (k + i)%nat) <= threshold_of a st') /\
  (threshold_of a st' = threshold_of a st \/
   exists i, (i < n)%nat /\ threshold_of a st' = raw_of a (sensor (k + i)%nat)).
Proof.
  revert k acc st. induction n as [ | n IH ]; intros k acc st.
  - cbn. split; [ lia | ]. split; [ intros i Hi; lia | now left ].
  - rewrite calibrate_loop_S.
    set (acc1 := fst (Gyro.calibrate_step (sensor k) acc st)).
    set (st1 := snd (Gyro.calibrate_step (sensor k) acc st)).
    destruct (IH (S k) acc1 st1) as (Hle & Hall & Hor).
    assert (H1 : threshold_of a st1 = Z.max (threshold_of a st) (raw_of a (sensor k)))
      by apply calibrate_step_threshold.
    cbv zeta. split; [ lia | ]. split.
    + intros [ | i ] Hi.
      * rewrite Nat.add_0_r. lia.
      * replace (k + S i)%nat with (S k + i)%nat by lia. apply Hall. lia.
    + destruct Hor as [Heq | (i & Hi & Heq)].
      * rewrite Heq, H1.
        destruct (Z.max_spec (threshold_of a st) (raw_of a (sensor k)))
          as [[_ Hm] | [_ Hm]]; rewrite Hm.
        -- right. exists 0%nat. split; [ lia | now rewrite Nat.add_0_r ].
        -- now left.
      * right. exists (S i). split; [ lia | ].
        now replace (k + S i)%nat with (S k + i)%nat by lia.
Qed.

Lemma calibrate_thresholds_of_loop (sensor : Gyro.Sensor) (a : Axis) (k : nat)
    (st : Gyro.GyroState) :
  threshold_of a (Gyro.CalibrateGyroscope sensor k st) =
  threshold_of a
    (snd (Gyro.calibrate_loop 128 k sensor (Gyro.mkCalib 0 0 0) st)).
Proof.
  unfold Gyro.CalibrateGyroscope.
  destruct (Gyro.calibrate_loop 128 k sensor (Gyro.mkCalib 0 0 0) st).
  destruct a; reflexivity.
Qed.

(** X7.  The noise threshold of an axis after a calibration is the
    largest of its value before the calibration and the 128 readings of
    the burst: it is at least each of them and equal to one of them.  A
    calibration never lowers a threshold. *)
Theorem calibration_threshold_ratchet (sensor : Gyro.Sensor) (a : Axis)
    (k : nat) (st : Gyro.GyroState) :
  let st' := Gyro.CalibrateGyroscope sensor k st in
  threshold_of a st <= threshold_of a st' /\
  (forall i, (i < 128)%nat ->
             raw_of a (sensor (k + i)%nat) <= threshold_of a st') /\
  (threshold_of a st' = threshold_of a st \/
   exists i, (i < 128)%nat /\
             threshold_of a st' = raw_of a (sensor (k + i)%nat)).
Proof.
  cbv zeta. rewrite calibrate_thresholds_of_loop.
  apply (calibrate_loop_thresholds sensor a 128 k (Gyro.mkCalib 0 0 0) st).
Qed.

Lemma calibrate_loop_sums_range (sensor : Gyro.Sensor) (n k : nat)
    (acc : Gyro.CalibSums) (st : Gyro.GyroState) :
  sums_in_range acc ->
  sums_in_range (fst (Gyro.calibrate_loop n k sensor acc st)).
Proof.
  revert k acc st. induction n as [ | n IH ]; intros k acc st Hacc;
    [ exact Hacc | ].
  rewrite calibrate_loop_S. apply IH.
  repeat split; apply wrap_range.
Qed.

Lemma bias_of_range (s : Z) :
  Int16.in_range s -> -256 <= Int16.wrap (Z.shiftr s 7) <= 255.
Proof.
  unfold Int16.in_range, Int16.min_int, Int16.max_int. intros Hs.
  rewrite Z.shiftr_div_pow2 by lia. change (2 ^ 7) with 128.
  assert (H : -256 <= s / 128 <= 255).
  { split.
    - apply Z.div_le_lower_bound; lia.
    - apply Z.lt_succ_r. apply Z.div_lt_upper_bound; lia. }
  rewrite wrap_in_range
    by (unfold Int16.in_range, Int16.min_int, Int16.max_int; lia).
  exact H.
Qed.

(** X8.  Whatever the sensor delivers, the bias a calibration computes
    lies between -256 and 255: the sum of the burst is kept in 16 bits
    before it is divided by 128. *)
Theorem calibration_bias_bounded (sensor : Gyro.Sensor) (a : Axis) (k : nat)
    (st : Gyro.GyroState) :
  -256 <= bias_of a (Gyro.CalibrateGyroscope sensor k st) <= 255.
Proof.
  unfold Gyro.CalibrateGyroscope.
  pose proof (calibrate_loop_sums_range sensor 128 k (Gyro.mkCalib 0 0 0) st)
    as Hr.
  destruct (Gyro.calibrate_loop 128 k sensor (Gyro.mkCalib 0 0 0) st)
    as [acc st'].
  destruct Hr as (Hx & Hy & Hz).
  { repeat split; cbn; unfold Int16.min_int, Int16.max_int; lia. }
  destruct a; cbn [bias_of Gyro.x_sample Gyro.y_sample Gyro.z_sample];
    now apply bias_of_range.
Qed.

Lemma small_reading_bias (v : Z) :
  small_reading v -> Int16.wrap (Z.shiftr (Int16.wrap (0 + Z.of_nat 128 * v)) 7) = v.
Proof.
  unfold small_reading. intros Hv.
  rewrite (wrap_in_range (0 + Z.of_nat 128 * v))
    by (unfold Int16.in_range, Int16.min_int, Int16.max_int; lia).
  rewrite Z.shiftr_div_pow2 by lia.
  replace (0 + Z.of_nat 128 * v) with (v * 2 ^ 7) by lia.
  rewrite Z.div_mul by lia.
  apply wrap_in_range.
  unfold Int16.in_range, Int16.min_int, Int16.max_int; lia.
Qed.

(** The state a calibration on a constant reading ends in. *)
Lemma calibrate_constant_state (vx vy vz : Z) (k : nat) (st : Gyro.GyroState) :
  small_reading vx -> small_reading vy -> small_reading vz ->
  Gyro.CalibrateGyroscope (constant_sensor vx vy vz) k st =
  Gyro.mkGyro (Z.max (Gyro.x_threshold st) vx)
              (Z.max (Gyro.y_threshold st) vy)
              (Z.max (Gyro.z_threshold st) vz)
              vx vy vz (Gyro.sensitivity st) (Gyro.mkRaw vx vy vz).
Proof.
  intros Hx Hy Hz. unfold Gyro.CalibrateGyroscope, constant_sensor.
  change 128%nat with (S 127).
  rewrite calibrate_loop_constant.
  cbn [Gyro.x_sample Gyro.y_sample Gyro.z_sample Gyro.sumX Gyro.sumY Gyro.sumZ
       Gyro.x_threshold Gyro.y_threshold Gyro.z_threshold Gyro.sensitivity
       Gyro.gyro_raw Gyro.x_raw Gyro.y_raw Gyro.z_raw].
  change (Z.of_nat (S 127)) with (Z.of_nat 128).
  now rewrite (small_reading_bias vx Hx), (small_reading_bias vy Hy),
    (small_reading_bias vz Hz).
Qed.

(** X9.  On a constant stream whose readings lie between -256 and 255 on
    each axis, the calibration finds the reading as bias of that axis and
    leaves as threshold the larger of the previous threshold and the
    reading; the sensitivity is not touched. *)
Theorem calibration_constant_stream (vx vy vz : Z) (k : nat)
    (st : Gyro.GyroState) :
  small_reading vx -> small_reading vy -> small_reading vz ->
  let st' := Gyro.CalibrateGyroscope (constant_sensor vx vy vz) k st in
  (forall a, bias_of a st' = raw_of a (Gyro.mkRaw vx vy vz)) /\
  (forall a, threshold_of a st' =
             Z.max (threshold_of a st) (raw_of a (Gyro.mkRaw vx vy vz))) /\
  Gyro.sensitivity st' = Gyro.sensitivity st.
Proof.
  intros Hx Hy Hz. cbv zeta.
  rewrite (calibrate_constant_state vx vy vz k st Hx Hy Hz).
  split; [ | split ]; try (intros a; destruct a); reflexivity.
Qed.

Lemma calibration_constant_stream_witness :
  small_reading 3 /\ small_reading (-2) /\ small_reading 1 /\
  bias_of AxisY (Gyro.CalibrateGyroscope (constant_sensor 3 (-2) 1) 0 Gyro.gyro0)
  = -2 /\
  threshold_of AxisY
    (Gyro.CalibrateGyroscope (constant_sensor 3 (-2) 1) 0 Gyro.gyro0) = 0.
Proof.
  assert (H3 : small_reading 3) by (unfold small_reading; lia).
  assert (H2 : small_reading (-2)) by (unfold small_reading; lia).
  assert (H1 : small_reading 1) by (unfold small_reading; lia).
  destruct (calibration_constant_stream 3 (-2) 1 0%nat Gyro.gyro0 H3 H2 H1)
    as (Hb & Ht & _).
  repeat (split; [ assumption | ]).
  split; [ exact (Hb AxisY) | exact (Ht AxisY) ].
Defined.

(** ** Initialisation with a recognized selector *)

(** X10.  With the four selectors different from one another, an
    initialisation with a recognized selector leaves the sensitivity of
    that range in the state: the 245 and 500 dps selectors their own, the
    two 2000 dps selectors the same one. *)
Theorem InitiateGyroscope_selects_sensitivity (cfg : SystemConfig)
    (p : Gyro.Gyroscope_Init_Parameters) (sensor : Gyro.Sensor) (k : nat)
    (st : Gyro.GyroState) :
  distinct_selectors cfg ->
  let s := Gyro.sensitivity (Gyro.InitiateGyroscope cfg p sensor k st) in
  (Gyro.conf4 p = FULL_SCALE_245 cfg -> s = SENSITIVITY_245 cfg) /\
  (Gyro.conf4 p = FULL_SCALE_500 cfg -> s = SENSITIVITY_500 cfg) /\
  (Gyro.conf4 p = FULL_SCALE_2000 cfg -> s = SENSITIVITY_2000 cfg) /\
  (Gyro.conf4 p = FULL_SCALE_2000_ALT cfg -> s = SENSITIVITY_2000 cfg).
Proof.
  intros (H1 & H2 & H3 & H4 & H5 & H6). cbv zeta.
  unfold Gyro.InitiateGyroscope. rewrite calibrate_sensitivity.
  cbn [Gyro.set_sensitivity Gyro.sensitivity].
  unfold Gyro.select_sensitivity.
  repeat split; intros ->;
    repeat match goal with
    | |- context [ (?x =? ?y) ] =>
        destruct (Z.eqb_spec x y); try congruence
    end.
Qed.

Lemma InitiateGyroscope_selects_sensitivity_witness :
  distinct_selectors example_config /\
  Gyro.sensitivity
    (Gyro.InitiateGyroscope example_config (init_with 48)
       (constant_sensor 3 (-2) 1) 0 Gyro.gyro0)
  = SENSITIVITY_2000 example_config.
Proof.
  assert (H : distinct_selectors example_config)
    by (repeat split; discriminate).
  split; [ exact H | ].
  apply (InitiateGyroscope_selects_sensitivity example_config (init_with 48)
           (constant_sensor 3 (-2) 1) 0%nat Gyro.gyro0 H).
  reflexivity.
Defined.

(** ** Reading the sensor: byte assembly and conditioning *)

Lemma land_byte_shifted (lo hi : Z) :
  GyroBus.is_byte lo -> Z.land lo (Z.shiftl hi 8) = 0.
Proof.
  unfold GyroBus.is_byte. intros Hlo.
  apply Z.bits_inj'. intros n Hn.
  rewrite Z.land_spec, Z.bits_0.
  destruct (Z.lt_ge_cases n 8) as [Hlt | Hge].
  - rewrite Z.shiftl_spec_low by lia. apply andb_false_r.
  - destruct (Z.eq_dec lo 0) as [-> | Hne]; [ now rewrite Z.bits_0 | ].
    rewrite (Z.bits_above_log2 lo n); [ reflexivity | lia | ].
    assert (Z.log2 lo < 8) by (apply Z.log2_lt_pow2; lia). lia.
Qed.

Lemma lor_bytes (lo hi : Z) :
  GyroBus.is_byte lo -> Z.lor lo (Z.shiftl hi 8) = lo + 256 * hi.
Proof.
  intros Hlo. pose proof (land_byte_shifted lo hi Hlo) as Hland.
  rewrite <- (Z.lxor_lor _ _ Hland), <- (Z.add_nocarry_lxor _ _ Hland).
  rewrite Z.shiftl_mul_pow2 by lia. change (2 ^ 8) with 256. lia.
Qed.

Lemma wrap_unsigned (u : Z) :
  0 <= u < 65536 -> Int16.wrap u = signed16 u.
Proof.
  intros Hu. unfold Int16.wrap, signed16.
  destruct (Z.ltb_spec u 32768) as [Hlt | Hge].
  - rewrite Z.mod_small by lia. lia.
  - replace (u + 32768) with (u - 32768 + 1 * 65536) by lia.
    rewrite Z_mod_plus_full, Z.mod_small by lia. lia.
Qed.

(** X11.  Two bytes are assembled into the 16-bit two's complement value
    with the left operand as low byte and the right one as high byte; the
    result always fits [int16_t]. *)
Theorem assemble_twos_complement (lo hi : Z) :
  GyroBus.is_byte lo -> GyroBus.is_byte hi ->
  GyroBus.assemble lo hi = signed16 (lo + 256 * hi) /\
  Int16.in_range (GyroBus.assemble lo hi).
Proof.
  intros Hlo Hhi. split; [ | apply wrap_range ].
  unfold GyroBus.assemble. rewrite (lor_bytes lo hi Hlo).
  apply wrap_unsigned. unfold GyroBus.is_byte in *. lia.
Qed.

Lemma assemble_twos_complement_witness :
  GyroBus.is_byte 254 /\ GyroBus.is_byte 255 /\ GyroBus.assemble 254 255 = -2.
Proof.
  assert (H1 : GyroBus.is_byte 254) by (unfold GyroBus.is_byte; lia).
  assert (H2 : GyroBus.is_byte 255) by (unfold GyroBus.is_byte; lia).
  split; [ exact H1 | ]. split; [ exact H2 | ].
  exact (proj1 (assemble_twos_complement 254 255 H1 H2)).
Defined.

Lemma byte_range (v : Z) :
  GyroBus.is_byte (GyroBus.low_byte v) /\ GyroBus.is_byte (GyroBus.high_byte v).
Proof.
  unfold GyroBus.is_byte, GyroBus.low_byte, GyroBus.high_byte.
  pose proof (Z.mod_pos_bound v 256).
  pose proof (Z.mod_pos_bound (v / 256) 256). lia.
Qed.

Lemma assemble_bytes (v : Z) :
  Int16.in_range v ->
  GyroBus.assemble (GyroBus.low_byte v) (GyroBus.high_byte v) = v.
Proof.
  intros Hv. destruct (byte_range v) as [Hlo Hhi].
  unfold GyroBus.assemble. rewrite (lor_bytes _ _ Hlo).
  unfold GyroBus.low_byte, GyroBus.high_byte.
  rewrite <- (Z.rem_mul_r v 256 256) by lia.
  change (256 * 256) with 65536.
  rewrite <- (wrap_in_range v Hv) at 2.
  unfold Int16.wrap. now rewrite Zplus_mod_idemp_l.
Qed.

(** X12.  Round trip of the bus read: when the sensor sends each axis as
    the low and the high byte of a 16-bit value, [GetGyroValue] returns
    the three values sent. *)
Theorem GetGyroValue_round_trip (vx vy vz : Z) :
  Int16.in_range vx -> Int16.in_range vy -> Int16.in_range vz ->
  GyroBus.GetGyroValue
    (GyroBus.mkTransfers
       (GyroBus.low_byte vx) (GyroBus.high_byte vx)
       (GyroBus.low_byte vy) (GyroBus.high_byte vy)
       (GyroBus.low_byte vz) (GyroBus.high_byte vz))
  = Gyro.mkRaw vx vy vz.
Proof.
  intros Hx Hy Hz. unfold GyroBus.GetGyroValue.
  cbn [GyroBus.x_low GyroBus.x_high GyroBus.y_low GyroBus.y_high
       GyroBus.z_low GyroBus.z_high].
  now rewrite (assemble_bytes vx Hx), (assemble_bytes vy Hy),
    (assemble_bytes vz Hz).
Qed.

Lemma GetGyroValue_round_trip_witness :
  Int16.in_range (-32768) /\ Int16.in_range 32767 /\ Int16.in_range (-1) /\
  GyroBus.GetGyroValue (GyroBus.mkTransfers 0 128 255 127 255 255)
  = Gyro.mkRaw (-32768) 32767 (-1).
Proof.
  assert (H1 : Int16.in_range (-32768))
    by (unfold Int16.in_range, Int16.min_int, Int16.max_int; lia).
  assert (H2 : Int16.in_range 32767)
    by (unfold Int16.in_range, Int16.min_int, Int16.max_int; lia).
  assert (H3 : Int16.in_range (-1))
    by (unfold Int16.in_range, Int16.min_int, Int16.max_int; lia).
  repeat (split; [ assumption | ]).
  exact (GetGyroValue_round_trip (-32768) 32767 (-1) H1 H2 H3).
Defined.

Lemma calibrate_axis_gate (raw sample thr : Z) :
  let v := Gyro.calibrate_axis raw sample thr in
  Int16.in_range v /\ (v = 0 \/ Z.abs thr <= Z.abs v).
Proof.
  cbv zeta. unfold Gyro.calibrate_axis.
  destruct (Z.ltb_spec (Z.abs (Int16.wrap (raw - sample))) (Z.abs thr)).
  - split; [ | now left ].
    unfold Int16.in_range, Int16.min_int, Int16.max_int; lia.
  - split; [ apply wrap_range | now right ].
Qed.

Lemma GetCalibratedRawData_axis (sensor : Gyro.Sensor) (k : nat)
    (st : Gyro.GyroState) (a : Axis) :
  raw_of a (Gyro.gyro_raw (Gyro.GetCalibratedRawData sensor k st)) =
  Gyro.calibrate_axis (raw_of a (sensor k)) (bias_of a st) (threshold_of a st).
Proof. destruct a; reflexivity. Qed.

Lemma GetCalibratedRawData_profile (sensor : Gyro.Sensor) (k : nat)
    (st : Gyro.GyroState) :
  same_profile st (Gyro.GetCalibratedRawData sensor k st).
Proof. repeat split; intros a; destruct a; reflexivity. Qed.

(** X13.  A conditioned reading fits [int16_t] and is a hard gate on each
    axis: it is either 0 or at least as large in magnitude as the noise
    threshold of the axis.  A reading equal to the bias gives 0.  The
    calibration profile is left as it was. *)
Theorem GetCalibratedRawData_gate (sensor : Gyro.Sensor) (k : nat)
    (st : Gyro.GyroState) (a : Axis) :
  let st' := Gyro.GetCalibratedRawData sensor k st in
  let v := raw_of a (Gyro.gyro_raw st') in
  Int16.in_range v /\
  (v = 0 \/ Z.abs (threshold_of a st) <= Z.abs v) /\
  (raw_of a (sensor k) = bias_of a st -> v = 0) /\
  same_profile st st'.
Proof.
  cbv zeta. rewrite GetCalibratedRawData_axis.
  destruct (calibrate_axis_gate (raw_of a (sensor k)) (bias_of a st)
              (threshold_of a st)) as [Hr Hg].
  split; [ exact Hr | ]. split; [ exact Hg | ].
  split; [ | apply GetCalibratedRawData_profile ].
  intros ->. unfold Gyro.calibrate_axis. rewrite Z.sub_diag.
  change (Int16.wrap 0) with 0. now destruct (Z.abs 0 <? _).
Qed.

Lemma GetCalibratedRawData_gate_witness :
  raw_of AxisX
    (Gyro.gyro_raw
       (Gyro.GetCalibratedRawData (constant_sensor 3 (-2) 1) 0 initialised_500))
  = 0.
Proof.
  pose proof (GetCalibratedRawData_gate (constant_sensor 3 (-2) 1) 0%nat
                initialised_500 AxisX) as H.
  cbv zeta in H. destruct H as (_ & _ & H & _).
  apply H. vm_compute. reflexivity.
Defined.

(** ** The moving-average filter as a ring buffer *)

Section RingBuffer.
Import Main.
#[local] Open Scope nat_scope.

Lemma push_state (v o : float) (f f1 : FilterState) :
  movingAverageFilter v f = Some (o, f1) ->
  index f1 = (index f + 1) mod WINDOW_SIZE /\
  buffer f1 = <[index f := v]> (buffer f).
Proof.
  unfold movingAverageFilter.
  destruct (buffer f !! index f); [ | discriminate ].
  intros H. injection H as _ <-. split; reflexivity.
Qed.

Lemma push_all_app (l1 l2 : list float) (f : FilterState) :
  push_all (l1 ++ l2) f =
  '(os1, f1) ← push_all l1 f;
  '(os2, f2) ← push_all l2 f1;
  Some (os1 ++ os2, f2).
Proof.
  revert f. induction l1 as [ | v l1 IH ]; intros f.
  - cbn. destruct (push_all l2 f) as [[os2 f2] | ]; reflexivity.
  - cbn [app push_all].
    destruct (movingAverageFilter v f) as [[o f1] | ]; [ | reflexivity ].
    cbn. rewrite IH.
    destruct (push_all l1 f1) as [[os1 f1'] | ]; [ | reflexivity ].
    cbn. destruct (push_all l2 f1') as [[os2 f2] | ]; reflexivity.
Qed.

Lemma push_all_index (vs os : list float) (f f' : FilterState) :
  well_formed f -> push_all vs f = Some (os, f') ->
  index f' = (index f + length vs) mod WINDOW_SIZE /\ well_formed f'.
Proof.
  revert os f. induction vs as [ | v vs IH ]; intros os f Hf Hp.
  - injection Hp as _ <-. split; [ | exact Hf ].
    rewrite Nat.add_0_r. symmetry. apply Nat.mod_small. apply Hf.
  - cbn [push_all] in Hp.
    destruct (push_well_formed v f Hf) as (o & f1 & Hm & Hf1).
    rewrite Hm in Hp. cbn in Hp.
    destruct (push_all vs f1) as [[os' f2] | ] eqn:Hr; [ | discriminate ].
    cbn in Hp. injection Hp as _ <-.
    destruct (IH os' f1 Hf1 Hr) as [Hi Hw]. split; [ | exact Hw ].
    rewrite Hi. destruct (push_state v o f f1 Hm) as [-> _].
    cbn [length]. rewrite Nat.Div0.add_mod_idemp_l.
    f_equal. lia.
Qed.

(** X14.  Every push moves the index one place round the ring: after a
    run of pushes from a well-formed state the index is the old one plus
    the number of pushes, modulo [WINDOW_SIZE], and each push has
    returned an average. *)
Theorem filter_index_advances (vs : list float) (f : FilterState) :
  well_formed f ->
  exists os f',
    push_all vs f = Some (os, f') /\
    length os = length vs /\
    index f' = (index f + length vs) mod WINDOW_SIZE.
Proof.
  intros Hf.
  destruct (push_all_well_formed vs f Hf) as (os & f' & Hp & _ & Hlen).
  exists os, f'. split; [ exact Hp | ]. split; [ exact Hlen | ].
  exact (proj1 (push_all_index vs os f f' Hf Hp)).
Qed.

Lemma filter_index_advances_witness :
  well_formed filter0 /\
  exists os f',
    push_all (map of_Z [1; 2; 3; 4; 5; 6; 7]%Z) filter0 = Some (os, f') /\
    index f' = 2.
Proof.
  split; [ exact filter0_well_formed | ].
  destruct (filter_index_advances (map of_Z [1; 2; 3; 4; 5; 6; 7]%Z) filter0
              filter0_well_formed) as (os & f' & Hp & _ & Hi).
  exists os, f'. split; [ exact Hp | exact Hi ].
Defined.

(** One full turn: [WINDOW_SIZE] pushes overwrite the whole window, in
    ring order from the index, and bring the index back. *)
Lemma window_after_turn (ws os : list float) (f f' : FilterState) :
  well_formed f -> length ws = WINDOW_SIZE ->
  push_all ws f = Some (os, f') ->
  index f' = index f /\
  forall k, k < WINDOW_SIZE ->
            buffer f' !! ((index f + k) mod WINDOW_SIZE) = ws !! k.
Proof.
  unfold well_formed, WINDOW_SIZE.
  destruct f as [buf i s]. cbn [index buffer]. intros [Hi Hl] Hws.
  destruct buf as [ | b0 [ | b1 [ | b2 [ | b3 [ | b4 [ | ? ? ] ] ] ] ] ];
    try discriminate Hl.
  destruct ws as [ | w0 [ | w1 [ | w2 [ | w3 [ | w4 [ | ? ? ] ] ] ] ] ];
    try discriminate Hws.
  destruct i as [ | [ | [ | [ | [ | i ] ] ] ] ]; try lia;
    cbn -[add sub div of_Z]; intros H; injection H as _ <-;
    cbn [index buffer]; (split; [ reflexivity | ]);
    intros [ | [ | [ | [ | [ | k ] ] ] ] ] Hk; try lia; reflexivity.
Qed.

(** X15.  After any run of pushes that ends with [WINDOW_SIZE] values
    [ws], the window holds exactly [ws], the [k]-th of them at position
    (old index + earlier pushes + k) modulo [WINDOW_SIZE]: nothing older
    is left in it. *)
Theorem window_holds_last_pushes (vs ws os : list float)
    (f f' : FilterState) :
  well_formed f -> length ws = WINDOW_SIZE ->
  push_all (vs ++ ws) f = Some (os, f') ->
  forall k, k < WINDOW_SIZE ->
    buffer f' !! ((index f + length vs + k) mod WINDOW_SIZE) = ws !! k.
Proof.
  intros Hf Hws Hp k Hk. rewrite push_all_app in Hp.
  destruct (push_all vs f) as [[os1 f1] | ] eqn:H1; [ | discriminate ].
  cbn in Hp.
  destruct (push_all ws f1) as [[os2 f2] | ] eqn:H2; [ | discriminate ].
  cbn in Hp. injection Hp as _ <-.
  destruct (push_all_index vs os1 f f1 Hf H1) as [Hi Hf1].
  destruct (window_after_turn ws os2 f1 f2 Hf1 Hws H2) as [_ Hw].
  rewrite <- (Hw k Hk), Hi.
  now rewrite Nat.Div0.add_mod_idemp_l.
Qed.

Lemma window_holds_last_pushes_witness :
  exists os f',
    push_all (map of_Z [9; 8]%Z ++ map of_Z [1; 2; 3; 4; 5]%Z) filter0
    = Some (os, f') /\
    buffer f' !! 2 = Some (of_Z 1) /\ buffer f' !! 1 = Some (of_Z 5).
Proof.
  destruct (push_all_well_formed
              (map of_Z [9; 8]%Z ++ map of_Z [1; 2; 3; 4; 5]%Z) filter0
              filter0_well_formed) as (os & f' & Hp & _ & _).
  exists os, f'. split; [ exact Hp | ].
  pose proof (window_holds_last_pushes (map of_Z [9; 8]%Z)
                (map of_Z [1; 2; 3; 4; 5]%Z) os filter0 f'
                filter0_well_formed eq_refl Hp) as Hw.
  split; [ apply (Hw 0); unfold WINDOW_SIZE; lia
         | apply (Hw 4); unfold WINDOW_SIZE; lia ].
Defined.

End RingBuffer.

(** ** Normalisation *)

Lemma add_nan_r (x : float) : add x S754_nan = S754_nan.
Proof. destruct x; reflexivity. Qed.

Lemma normalize_point_nan (p : Sample) :
  nan_sample p = true -> Main.normalize_point p = p.
Proof.
  destruct p as [x y z]. unfold nan_sample. cbn [axis_x axis_y axis_z].
  intros H. unfold Main.normalize_point. cbn [axis_x axis_y axis_z].
  assert (Hm : sqrt (add (add (mul x x) (mul y y)) (mul z z)) = S754_nan).
  { apply orb_prop in H as [H | Hz]; [ apply orb_prop in H as [Hx | Hy] | ].
    - destruct x; try discriminate Hx. reflexivity.
    - destruct y; try discriminate Hy.
      change (mul S754_nan S754_nan) with S754_nan.
      rewrite add_nan_r. reflexivity.
    - destruct z; try discriminate Hz.
      change (mul S754_nan S754_nan) with S754_nan.
      rewrite add_nan_r. reflexivity. }
  now rewrite Hm.
Qed.

Lemma normalize_point_zero (p : Sample) :
  zero_sample p = true -> Main.normalize_point p = p.
Proof.
  destruct p as [x y z]. unfold zero_sample. cbn [axis_x axis_y axis_z].
  destruct x as [ [ | ] | | | ]; try discriminate;
    destruct y as [ [ | ] | | | ]; try discriminate;
    destruct z as [ [ | ] | | | ]; try discriminate; reflexivity.
Qed.

Lemma lookup_map {A B : Type} (g : A -> B) (l : list A) (i : nat) :
  map g l !! i = g <$> l !! i.
Proof.
  revert i. induction l as [ | x l IH ]; intros [ | i ]; try reflexivity.
  apply IH.
Qed.

(** X16.  [normalize] keeps the number of samples and works sample by
    sample; it leaves as it is every sample whose three axes are zeros
    (of either sign) and every sample with a NaN axis: in neither case is
    anything divided. *)
Theorem normalize_keeps_degenerate (data : list Sample) :
  length (Main.normalize data) = length data /\
  (forall i, Main.normalize data !! i = Main.normalize_point <$> data !! i) /\
  (forall i p, data !! i = Some p ->
               zero_sample p || nan_sample p = true ->
               Main.normalize data !! i = Some p).
Proof.
  split; [ apply length_normalize | ].
  assert (Hl : forall i,
             Main.normalize data !! i = Main.normalize_point <$> data !! i)
    by (intros i; apply lookup_map).
  split; [ exact Hl | ].
  intros i p Hi Hd. rewrite Hl, Hi. cbn. f_equal.
  apply orb_prop in Hd as [Hz | Hn];
    [ now apply normalize_point_zero | now apply normalize_point_nan ].
Qed.

Lemma normalize_keeps_degenerate_witness :
  Main.normalize [sample_of_Z 3 4 0; mkSample (S754_zero true) zero zero;
                  mkSample f1 NaN f2] !! 1%nat
  = Some (mkSample (S754_zero true) zero zero) /\
  Main.normalize [sample_of_Z 3 4 0; mkSample (S754_zero true) zero zero;
                  mkSample f1 NaN f2] !! 2%nat
  = Some (mkSample f1 NaN f2).
Proof.
  pose proof (normalize_keeps_degenerate
                [sample_of_Z 3 4 0; mkSample (S754_zero true) zero zero;
                 mkSample f1 NaN f2]) as (_ & _ & H).
  split; [ apply (H 1%nat) | apply (H 2%nat) ]; reflexivity.
Defined.

(** ** Conversion to degrees per second *)

Lemma digits2_iter (m k : positive) :
  digits2_pos (Pos.iter xO m k) = (digits2_pos m + k)%positive.
Proof.
  induction k as [ | k IH ] using Pos.peano_ind.
  - cbn. now rewrite Pos.add_1_r.
  - rewrite Pos.iter_succ. cbn [digits2_pos]. rewrite IH.
    now rewrite Pos.add_succ_r.
Qed.

Lemma digits2_pow (m : positive) : 2 ^ (Zpos (digits2_pos m) - 1) <= Zpos m.
Proof.
  induction m as [ m IH | m IH | ]; cbn [digits2_pos].
  - rewrite Pos2Z.inj_succ.
    replace (Z.succ (Zpos (digits2_pos m)) - 1)
      with (Z.succ (Zpos (digits2_pos m) - 1)) by lia.
    rewrite Z.pow_succ_r by lia. lia.
  - rewrite Pos2Z.inj_succ.
    replace (Z.succ (Zpos (digits2_pos m)) - 1)
      with (Z.succ (Zpos (digits2_pos m) - 1)) by lia.
    rewrite Z.pow_succ_r by lia. lia.
  - cbn. lia.
Qed.

Lemma digits2_small (m : positive) :
  Zpos m < 65536 -> Zpos (digits2_pos m) <= 16.
Proof.
  intros Hm. pose proof (digits2_pow m) as Hp.
  destruct (Z.le_gt_cases (Zpos (digits2_pos m)) 16) as [ | Hgt ];
    [ assumption | ].
  assert (2 ^ 16 <= 2 ^ (Zpos (digits2_pos m) - 1))
    by (apply Z.pow_le_mono_r; lia).
  change (2 ^ 16) with 65536 in *. lia.
Qed.

(** An integer of at most 16 binary digits is converted without a shift
    to the right: the result is a finite number. *)
Lemma binary_round_small (s : bool) (m : positive) :
  Zpos (digits2_pos m) <= 16 ->
  exists mz e, binary_round prec emax s m 0 = S754_finite s mz e.
Proof.
  intros Hd. unfold binary_round, prec, emax.
  set (d := digits2_pos m) in *.
  assert (Hf : fexp 24 128 (Zpos d + 0) = Zpos d - 24)
    by (unfold fexp, emin; lia).
  rewrite Hf. unfold shl_align.
  destruct (Zpos d - 24 - 0) as [ | k | k ] eqn:E; try lia.
  unfold binary_round_aux, shr_fexp.
  cbn [Zdigits2]. rewrite digits2_iter. fold d.
  assert (H24 : Zpos (d + k) = 24) by lia.
  rewrite H24.
  assert (Hf2 : fexp 24 128 (24 + (Zpos d - 24)) - (Zpos d - 24) = 0)
    by (unfold fexp, emin; lia).
  rewrite Hf2.
  cbn [shr shr_record_of_loc shr_m loc_of_shr_record round_nearest_even].
  cbn [Zdigits2]. rewrite digits2_iter. fold d. rewrite H24, Hf2.
  cbn [shr shr_m].
  replace (Zpos d - 24 <=? 128 - 24) with true
    by (symmetry; apply Z.leb_le; lia).
  eauto.
Qed.

Lemma of_Z_finite (v : Z) : Int16.in_range v -> is_finite (of_Z v) = true.
Proof.
  unfold Int16.in_range, Int16.min_int, Int16.max_int. intros Hv.
  destruct v as [ | m | m ]; [ reflexivity | | ].
  - destruct (binary_round_small false m) as (mz & e & H);
      [ apply digits2_small; lia | ].
    unfold of_Z, binary_normalize. now rewrite H.
  - destruct (binary_round_small true m) as (mz & e & H);
      [ apply digits2_small; lia | ].
    unfold of_Z, binary_normalize. now rewrite H.
Qed.

Lemma mul_finite_zero (x s : float) :
  is_finite x = true -> is_zero s = true -> is_zero (mul x s) = true.
Proof.
  destruct x as [ | | | ]; try discriminate;
    destruct s as [ | | | ]; try discriminate; reflexivity.
Qed.

Lemma mul_zero_finite (x s : float) :
  is_zero x = true -> is_finite s = true -> is_zero (mul x s) = true.
Proof.
  destruct x as [ | | | ]; try discriminate;
    destruct s as [ | | | ]; try discriminate; reflexivity.
Qed.

(** X17.  While the sensitivity is a zero, as it is from program start
    until an initialisation with a recognized selector, every 16-bit
    reading converts to a zero; and with a finite sensitivity the reading
    0 converts to a zero. *)
Theorem ConvertToDPS_zero (st : Gyro.GyroState) (v : Z) :
  Int16.in_range v ->
  (is_zero (Gyro.sensitivity st) = true ->
   is_zero (Gyro.ConvertToDPS st v) = true) /\
  (is_finite (Gyro.sensitivity st) = true ->
   is_zero (Gyro.ConvertToDPS st 0) = true).
Proof.
  intros Hv. unfold Gyro.ConvertToDPS. split; intros Hs.
  - apply mul_finite_zero; [ now apply of_Z_finite | exact Hs ].
  - now apply mul_zero_finite.
Qed.

Lemma ConvertToDPS_zero_witness :
  Int16.in_range 1234 /\
  is_zero (Gyro.ConvertToDPS Gyro.gyro0 1234) = true /\
  is_zero (Gyro.ConvertToDPS initialised_500 0) = true.
Proof.
  assert (H : Int16.in_range 1234)
    by (unfold Int16.in_range, Int16.min_int, Int16.max_int; lia).
  split; [ exact H | ]. split.
  - apply (ConvertToDPS_zero Gyro.gyro0 1234 H). reflexivity.
  - apply (ConvertToDPS_zero initialised_500 1234 H). vm_compute. reflexivity.
Defined.

(** ** The touch screen *)

(** X18.  A touch requests a recording exactly inside the rectangle
    60..180 by 80..130 and an unlock exactly inside 60..180 by 180..230,
    edges included; no touch requests both, and without a touch nothing
    is requested. *)
Theorem touch_requests_exclusive (ts : Touch.TS_StateTypeDef) :
  let r := Touch.touch_screen_poll ts in
  (Touch.sets_KEY_FLAG r = true <->
     Touch.TouchDetected ts = true /\
     60 <= Touch.X ts <= 180 /\ 80 <= Touch.Y ts <= 130) /\
  (Touch.sets_UNLOCK_FLAG r = true <->
     Touch.TouchDetected ts = true /\
     60 <= Touch.X ts <= 180 /\ 180 <= Touch.Y ts <= 230) /\
  Touch.sets_KEY_FLAG r && Touch.sets_UNLOCK_FLAG r = false.
Proof.
  cbv zeta. unfold Touch.touch_screen_poll, Touch.is_touch_inside_button,
    Touch.button1_x, Touch.button1_y, Touch.button1_width,
    Touch.button1_height, Touch.button2_x, Touch.button2_y,
    Touch.button2_width, Touch.button2_height.
  destruct ts as [[ | ] x y]; cbn [Touch.TouchDetected Touch.X Touch.Y
    Touch.sets_KEY_FLAG Touch.sets_UNLOCK_FLAG].
  - change (60 + 120) with 180. change (80 + 50) with 130.
    change (180 + 50) with 230.
    destruct (Z.leb_spec 60 x), (Z.leb_spec x 180), (Z.leb_spec 80 y),
      (Z.leb_spec y 130), (Z.leb_spec 180 y), (Z.leb_spec y 230);
      cbn [andb]; repeat split; try reflexivity; try lia;
      intros; try discriminate; try lia.
  - repeat split; try reflexivity; intros; try discriminate; lia || tauto.
Qed.

(** ** The recording loop *)

Section Recording.
Import Main.
#[local] Open Scope nat_scope.

Lemma same_profile_refl (g : Gyro.GyroState) : same_profile g g.
Proof. repeat split. Qed.

Lemma same_profile_trans (g1 g2 g3 : Gyro.GyroState) :
  same_profile g1 g2 -> same_profile g2 g3 -> same_profile g1 g3.
Proof.
  intros (Ht & Hb & Hs) (Ht' & Hb' & Hs').
  repeat split; intros; congruence.
Qed.

Lemma record_loop_S (n k : nat) (sensor : Gyro.Sensor) (g : Gyro.GyroState)
    (fl : Filters) (temp_key : list Sample) (sx sy sz : float)
    (fx fy fz : FilterState) :
  let g' := Gyro.GetCalibratedRawData sensor k g in
  movingAverageFilter (Gyro.ConvertToDPS g' (Gyro.x_raw (Gyro.gyro_raw g')))
    (filter_x fl) = Some (sx, fx) ->
  movingAverageFilter (Gyro.ConvertToDPS g' (Gyro.y_raw (Gyro.gyro_raw g')))
    (filter_y fl) = Some (sy, fy) ->
  movingAverageFilter (Gyro.ConvertToDPS g' (Gyro.z_raw (Gyro.gyro_raw g')))
    (filter_z fl) = Some (sz, fz) ->
  record_loop (S n) k sensor g fl temp_key =
  record_loop n (S k) sensor g' (mkFilters fx fy fz)
    (temp_key ++ [mkSample sx sy sz]).
Proof.
  intros g' Hx Hy Hz. cbn [record_loop]. fold g'.
  rewrite Hx. cbn [mbind option_bind].
  rewrite Hy. cbn [mbind option_bind].
  rewrite Hz. reflexivity.
Qed.

(** X19.  With the three filters well formed, the recording loop always
    completes: it appends one sample per acquisition to the recording,
    leaves the filters well formed and does not change the calibration
    profile. *)
Theorem record_loop_appends (n k : nat) (sensor : Gyro.Sensor)
    (g : Gyro.GyroState) (fl : Filters) (temp_key : list Sample) :
  filters_well_formed fl ->
  exists g' fl' new,
    record_loop n k sensor g fl temp_key = Some (g', fl', temp_key ++ new) /\
    length new = n /\ filters_well_formed fl' /\ same_profile g g'.
Proof.
  revert k g fl temp_key.
  induction n as [ | n IH ]; intros k g fl temp_key Hfl.
  - exists g, fl, []. rewrite app_nil_r.
    split; [ reflexivity | ]. split; [ reflexivity | ].
    split; [ exact Hfl | apply same_profile_refl ].
  - destruct Hfl as (Hx & Hy & Hz).
    set (g1 := Gyro.GetCalibratedRawData sensor k g).
    destruct (push_well_formed
                (Gyro.ConvertToDPS g1 (Gyro.x_raw (Gyro.gyro_raw g1)))
                (filter_x fl) Hx) as (sx & fx & Hpx & Hfx).
    destruct (push_well_formed
                (Gyro.ConvertToDPS g1 (Gyro.y_raw (Gyro.gyro_raw g1)))
                (filter_y fl) Hy) as (sy & fy & Hpy & Hfy).
    destruct (push_well_formed
                (Gyro.ConvertToDPS g1 (Gyro.z_raw (Gyro.gyro_raw g1)))
                (filter_z fl) Hz) as (sz & fz & Hpz & Hfz).
    rewrite (record_loop_S n k sensor g fl temp_key sx sy sz fx fy fz
               Hpx Hpy Hpz).
    fold g1.
    destruct (IH (S k) g1 (mkFilters fx fy fz)
                (temp_key ++ [mkSample sx sy sz]))
      as (g' & fl' & new & Hr & Hlen & Hfl' & Hprof);
      [ exact (conj Hfx (conj Hfy Hfz)) | ].
    exists g', fl', (mkSample sx sy sz :: new).
    split; [ rewrite Hr; now rewrite <- app_assoc | ].
    split; [ cbn; now rewrite Hlen | ]. split; [ exact Hfl' | ].
    apply (same_profile_trans g g1 g');
      [ apply GetCalibratedRawData_profile | exact Hprof ].
Qed.

Lemma record_loop_appends_witness :
  filters_well_formed (filters session0) /\
  exists g' fl' new,
    record_loop 7 128 moving_sensor initialised_500 (filters session0) []
    = Some (g', fl', new) /\ length new = 7.
Proof.
  assert (H : filters_well_formed (filters session0))
    by exact (conj filter0_well_formed
                (conj filter0_well_formed filter0_well_formed)).
  split; [ exact H | ].
  destruct (record_loop_appends 7 128 moving_sensor initialised_500
              (filters session0) [] H) as (g' & fl' & new & Hr & Hlen & _).
  exists g', fl', new. split; [ exact Hr | exact Hlen ].
Defined.

End Recording.

(** ** Passes of the session loop *)

Section Passes.
Import Main Utilities.
#[local] Open Scope nat_scope.

Variable cfg : SystemConfig.

(** The key store as the recording part of a pass leaves it. *)
Lemma pass_with_recording (fc : Flags) (sensor : Gyro.Sensor) (n : nat)
    (s s' : Session) :
  KEY_FLAG fc || UNLOCK_FLAG fc = true ->
  gyroscope_thread_iteration cfg fc sensor n s = Some s' ->
  exists g2 fl2 recorded t,
    trim_gyro_data recorded = Some t /\
    s' = mkSession
           (let ks2 := set_display MsgFinished
                         (if ERASE_FLAG fc then erase_key (keys s) else keys s) in
            if KEY_FLAG fc then save_key t ks2 else unlock cfg t ks2)
           g2 fl2.
Proof.
  intros Hfl. unfold gyroscope_thread_iteration. rewrite Hfl.
  destruct (record_loop n 128 sensor _ (filters s) [])
    as [[[g2 fl2] recorded] | ]; [ | discriminate ].
  cbn [mbind option_bind].
  destruct (trim_gyro_data recorded) as [t | ] eqn:Ht; [ | discriminate ].
  cbn [mbind option_bind]. intros H. injection H as <-.
  exists g2, fl2, recorded, t. split; [ exact Ht | ].
  apply orb_prop in Hfl as [Hk | Hu].
  - now rewrite Hk.
  - destruct (KEY_FLAG fc); [ reflexivity | now rewrite Hu ].
Qed.

Lemma pass_without_recording (fc : Flags) (sensor : Gyro.Sensor) (n : nat)
    (s : Session) :
  KEY_FLAG fc = false -> UNLOCK_FLAG fc = false ->
  gyroscope_thread_iteration cfg fc sensor n s =
  Some (mkSession (if ERASE_FLAG fc then erase_key (keys s) else keys s)
                  (gyro s) (filters s)).
Proof.
  intros Hk Hu. unfold gyroscope_thread_iteration. now rewrite Hk, Hu.
Qed.

Lemma trim_ends_active (data t : list Sample) :
  trim_gyro_data data = Some t ->
  t <> [] /\
  exists pl pr, head t = Some pl /\ active pl /\ last t = Some pr /\ active pr.
Proof.
  intros Ht.
  destruct (trim_gyro_data_some data t Ht)
    as (l & r & pl & pr & Hlr & Hr & Hl & Hpl & Hpr' & Hpr & _ & _ & ->).
  assert (Hlen : length (take (S r - l) (drop l data)) = S (r - l)).
  { rewrite length_take, length_drop. lia. }
  split; [ intros E; rewrite E in Hlen; discriminate Hlen | ].
  exists pl, pr. split; [ | split; [ exact Hpl | split; [ | exact Hpr ] ] ].
  - rewrite head_lookup, lookup_take_lt by lia.
    now rewrite lookup_drop, Nat.add_0_r.
  - rewrite last_lookup, Hlen. cbn [pred].
    rewrite lookup_take_lt by lia. rewrite lookup_drop.
    now replace (l + (r - l)) with r by lia.
Qed.

(** X20.  A pass with a record request that completes always leaves a
    key in the slot: the stored key is not empty, starts and ends with an
    active sample, the red LED is on instead of the green one and a saved
    key is reported; this holds whether or not an erase or an unlock was
    requested with it. *)
Theorem record_pass_stores_active_key (fc : Flags) (sensor : Gyro.Sensor)
    (n : nat) (s s' : Session) :
  KEY_FLAG fc = true ->
  gyroscope_thread_iteration cfg fc sensor n s = Some s' ->
  gesture_key (keys s') <> [] /\
  (exists pl pr,
     head (gesture_key (keys s')) = Some pl /\ active pl /\
     last (gesture_key (keys s')) = Some pr /\ active pr) /\
  led_status_red (keys s') = true /\ led_status_green (keys s') = false /\
  (display (keys s') = MsgKeySaved \/ display (keys s') = MsgNewKeySaved).
Proof.
  intros Hk Hp.
  destruct (pass_with_recording fc sensor n s s') as (g2 & fl2 & rec & t & Ht & ->);
    [ now rewrite Hk | exact Hp | ].
  rewrite Hk. cbn [keys]. cbv zeta.
  destruct (trim_ends_active rec t Ht) as [Hne Hends].
  unfold save_key.
  destruct (gesture_key (set_display MsgFinished _));
    cbn [gesture_key led_status_red led_status_green display];
    repeat (split; [ assumption || reflexivity | ]); auto.
Qed.

Lemma unlock_key_length (t : list Sample) (ks : KeyStore) :
  length (gesture_key (unlock cfg t ks)) <= length (gesture_key ks).
Proof.
  pose proof (compare_key_leaves (gesture_key ks) t) as Hk.
  unfold unlock.
  destruct (gesture_key ks) as [ | p key ] eqn:Ek; [ cbn; lia | ].
  destruct (compare_key (p :: key) t) as [[c k'] r'].
  cbn [fst snd] in Hk. subst k'.
  destruct (count_axes cfg c =? 3); cbn [gesture_key];
    rewrite length_normalize, length_take; lia.
Qed.

Lemma unlock_without_key (t : list Sample) (ks : KeyStore) :
  gesture_key ks = [] -> unlock cfg t ks = mkKeys [] [] true false MsgNoKeySaved.
Proof. intros H. unfold unlock. now rewrite H. Qed.

(** X21.  A completed pass with an unlock request and no record request
    reports that no key is saved whenever the slot is empty at the time
    of the comparison, that is when it was empty before the pass or an
    erase was requested with the unlock; the slot stays empty, the
    unlocking record is cleared and the green LED is on. *)
Theorem unlock_pass_without_key (fc : Flags) (sensor : Gyro.Sensor)
    (n : nat) (s s' : Session) :
  KEY_FLAG fc = false -> UNLOCK_FLAG fc = true ->
  ERASE_FLAG fc = true \/ gesture_key (keys s) = [] ->
  gyroscope_thread_iteration cfg fc sensor n s = Some s' ->
  display (keys s') = MsgNoKeySaved /\
  gesture_key (keys s') = [] /\ unlocking_record (keys s') = [] /\
  led_status_green (keys s') = true /\ led_status_red (keys s') = false.
Proof.
  intros Hk Hu He Hp.
  destruct (pass_with_recording fc sensor n s s') as (g2 & fl2 & rec & t & Ht & ->);
    [ now rewrite Hk, Hu | exact Hp | ].
  rewrite Hk. cbn [keys]. cbv zeta.
  rewrite unlock_without_key; [ repeat split | ].
  unfold set_display. cbn [gesture_key].
  destruct He as [-> | He]; [ reflexivity | ].
  destruct (ERASE_FLAG fc); [ reflexivity | exact He ].
Qed.

(** X22.  A completed pass without a record request never lengthens the
    stored key: an erase request empties the slot, an unlock request can
    only shorten what is stored, and an empty slot stays empty.  Only a
    record request puts a key into the slot. *)
Theorem pass_without_record_never_lengthens (fc : Flags)
    (sensor : Gyro.Sensor) (n : nat) (s s' : Session) :
  KEY_FLAG fc = false ->
  gyroscope_thread_iteration cfg fc sensor n s = Some s' ->
  length (gesture_key (keys s')) <= length (gesture_key (keys s)) /\
  (ERASE_FLAG fc = true -> gesture_key (keys s') = []) /\
  (gesture_key (keys s) = [] -> gesture_key (keys s') = []).
Proof.
  intros Hk Hp.
  assert (Hlen : length (gesture_key (keys s')) <= length (gesture_key (keys s)) /\
                 (ERASE_FLAG fc = true -> gesture_key (keys s') = [])).
  { destruct (UNLOCK_FLAG fc) eqn:Hu.
    - destruct (pass_with_recording fc sensor n s s')
        as (g2 & fl2 & rec & t & Ht & ->);
        [ now rewrite Hk, Hu | exact Hp | ].
      rewrite Hk. cbn [keys]. cbv zeta.
      pose proof (unlock_key_length t
                    (set_display MsgFinished
                       (if ERASE_FLAG fc then erase_key (keys s) else keys s)))
        as Hl.
      unfold set_display at 2 in Hl. cbn [gesture_key] in Hl.
      destruct (ERASE_FLAG fc); cbn [erase_key gesture_key length] in Hl.
      + split; [ lia | ]. intros _.
        destruct (gesture_key (unlock cfg t _)); [ reflexivity | cbn in Hl; lia ].
      + split; [ exact Hl | discriminate ].
    - rewrite (pass_without_recording fc sensor n s Hk Hu) in Hp.
      injection Hp as <-. cbn [keys].
      destruct (ERASE_FLAG fc); cbn [erase_key gesture_key length].
      + split; [ lia | reflexivity ].
      + split; [ lia | discriminate ]. }
  destruct Hlen as [Hl He]. split; [ exact Hl | ]. split; [ exact He | ].
  intros Hempty. rewrite Hempty in Hl.
  destruct (gesture_key (keys s')); [ reflexivity | cbn in Hl; lia ].
Qed.

End Passes.

Lemma record_pass_stores_active_key_witness :
  exists s',
    Main.gyroscope_thread_iteration example_config record_requested
      moving_sensor 10 Main.session0 = Some s' /\
    Main.gesture_key (Main.keys s') <> [].
Proof.
  destruct (Main.gyroscope_thread_iteration example_config record_requested
              moving_sensor 10 Main.session0) as [s' | ] eqn:E;
    [ | vm_compute in E; discriminate E ].
  exists s'. split; [ reflexivity | ].
  apply (record_pass_stores_active_key example_config record_requested
           moving_sensor 10 Main.session0 s'); [ reflexivity | exact E ].
Defined.

Lemma unlock_pass_without_key_witness :
  exists s',
    Main.gyroscope_thread_iteration example_config unlock_requested
      moving_sensor 10 Main.session0 = Some s' /\
    Main.display (Main.keys s') = Main.MsgNoKeySaved.
Proof.
  destruct (Main.gyroscope_thread_iteration example_config unlock_requested
              moving_sensor 10 Main.session0) as [s' | ] eqn:E;
    [ | vm_compute in E; discriminate E ].
  exists s'. split; [ reflexivity | ].
  apply (unlock_pass_without_key example_config unlock_requested
           moving_sensor 10 Main.session0 s');
    [ reflexivity | reflexivity | right; reflexivity | exact E ].
Defined.

Lemma pass_without_record_never_lengthens_witness :
  exists s',
    Main.gyroscope_thread_iteration example_config unlock_requested
      moving_sensor 10 Main.session0 = Some s' /\
    Main.gesture_key (Main.keys s') = [].
Proof.
  destruct (Main.gyroscope_thread_iteration example_config unlock_requested
              moving_sensor 10 Main.session0) as [s' | ] eqn:E;
    [ | vm_compute in E; discriminate E ].
  exists s'. split; [ reflexivity | ].
  apply (pass_without_record_never_lengthens example_config unlock_requested
           moving_sensor 10 Main.session0 s'); [ reflexivity | exact E | ].
  reflexivity.
Defined.

(** ** A device at rest *)

Section AtRest.
Import Main Utilities.
#[local] Open Scope nat_scope.

Lemma quiet_sum (old v : float) :
  is_zero old = true -> is_zero v = true -> add (sub zero old) v = zero.
Proof.
  destruct old as [ [ | ] | | | ]; try discriminate;
    destruct v as [ [ | ] | | | ]; try discriminate; reflexivity.
Qed.

(** Pushing a zero into a filter at rest returns [+0] and leaves the
    filter at rest. *)
Lemma quiet_push (v : float) (f : FilterState) :
  quiet f -> is_zero v = true ->
  exists f', movingAverageFilter v f = Some (zero, f') /\ quiet f'.
Proof.
  intros (Hwf & Hall & Hsum) Hv.
  destruct (push_well_formed v f Hwf) as (o & f' & Hp & Hwf').
  exists f'. pose proof Hp as Hp'.
  unfold movingAverageFilter in Hp'.
  destruct (buffer f !! index f) as [old | ] eqn:Hold; [ | discriminate ].
  assert (Hzero : is_zero old = true)
    by exact (Forall_lookup_1 _ _ _ _ Hall Hold).
  rewrite Hsum, (quiet_sum old v Hzero Hv) in Hp'.
  injection Hp' as Ho Hf'.
  assert (o = zero) as -> by (rewrite <- Ho; vm_compute; reflexivity).
  split; [ exact Hp | ].
  split; [ exact Hwf' | ]. rewrite <- Hf'. cbn [buffer sum].
  split; [ | reflexivity ].
  apply Forall_insert; assumption.
Qed.

Lemma calibrate_axis_at_bias (v thr : Z) : Gyro.calibrate_axis v v thr = 0%Z.
Proof.
  unfold Gyro.calibrate_axis. rewrite Z.sub_diag.
  change (Int16.wrap 0) with 0%Z. now destruct (Z.abs 0 <? Z.abs thr)%Z.
Qed.

(** With the bias equal to the constant reading and filters at rest, the
    recording loop appends samples at rest only. *)
Lemma record_loop_at_rest (vx vy vz : Z) (n k : nat) (g : Gyro.GyroState)
    (fl : Filters) (temp_key : list Sample) :
  Gyro.x_sample g = vx -> Gyro.y_sample g = vy -> Gyro.z_sample g = vz ->
  is_finite (Gyro.sensitivity g) = true ->
  quiet_filters fl ->
  exists g' fl',
    record_loop n k (constant_sensor vx vy vz) g fl temp_key =
    Some (g', fl', temp_key ++ replicate n origin).
Proof.
  revert k g fl temp_key.
  induction n as [ | n IH ]; intros k g fl temp_key Hx Hy Hz Hs (Qx & Qy & Qz).
  - exists g, fl. cbn. now rewrite app_nil_r.
  - set (g1 := Gyro.GetCalibratedRawData (constant_sensor vx vy vz) k g).
    assert (Hraw : Gyro.gyro_raw g1 = Gyro.mkRaw 0 0 0).
    { subst g1. unfold Gyro.GetCalibratedRawData, constant_sensor.
      cbn [Gyro.gyro_raw Gyro.x_raw Gyro.y_raw Gyro.z_raw].
      rewrite Hx, Hy, Hz. now rewrite !calibrate_axis_at_bias. }
    assert (Hconv : is_zero (Gyro.ConvertToDPS g1 0) = true).
    { unfold Gyro.ConvertToDPS. apply mul_zero_finite; [ reflexivity | exact Hs ]. }
    destruct (quiet_push _ _ Qx Hconv) as (fx & Hpx & Qx').
    destruct (quiet_push _ _ Qy Hconv) as (fy & Hpy & Qy').
    destruct (quiet_push _ _ Qz Hconv) as (fz & Hpz & Qz').
    rewrite (record_loop_S n k (constant_sensor vx vy vz) g fl temp_key
               zero zero zero fx fy fz);
      fold g1; try (rewrite Hraw; assumption).
    change (mkSample zero zero zero) with origin.
    destruct (IH (S k) g1 (mkFilters fx fy fz) (temp_key ++ [origin]))
      as (g' & fl' & Hr); try assumption; try reflexivity.
    { exact (conj Qx' (conj Qy' Qz')). }
    exists g', fl'. rewrite Hr. f_equal. f_equal.
    rewrite <- app_assoc. reflexivity.
Qed.

End AtRest.

Lemma trim_replicate_origin (n : nat) :
  Utilities.trim_gyro_data (replicate n origin) = None.
Proof.
  unfold Utilities.trim_gyro_data.
  rewrite (scan_forward_none (replicate n origin) 0); [ reflexivity | ].
  induction n as [ | n IH ]; constructor; [ reflexivity | exact IH ].
Qed.

Lemma select_500 (cfg : SystemConfig) (old : float) :
  FULL_SCALE_245 cfg <> FULL_SCALE_500 cfg ->
  Gyro.select_sensitivity cfg (FULL_SCALE_500 cfg) old = SENSITIVITY_500 cfg.
Proof.
  intros Hne. unfold Gyro.select_sensitivity.
  destruct (Z.eqb_spec (FULL_SCALE_500 cfg) (FULL_SCALE_245 cfg)) as [E | _];
    [ now symmetry in E | ].
  now rewrite Z.eqb_refl.
Qed.

(** X23.  With a device at rest, that is a sensor delivering the same
    reading between -256 and 255 on each axis throughout, filters at
    rest and a finite sensitivity for the 500 dps range, a pass with a
    record or an unlock request never completes: the calibration takes
    the reading as bias, every conditioned and smoothed sample is zero,
    and the trim reads past the end of the recording. *)
Theorem at_rest_pass_never_completes (cfg : SystemConfig) (fc : Main.Flags)
    (vx vy vz : Z) (n : nat) (s : Main.Session) :
  FULL_SCALE_245 cfg <> FULL_SCALE_500 cfg ->
  is_finite (SENSITIVITY_500 cfg) = true ->
  small_reading vx -> small_reading vy -> small_reading vz ->
  quiet_filters (Main.filters s) ->
  Main.KEY_FLAG fc || Main.UNLOCK_FLAG fc = true ->
  Main.gyroscope_thread_iteration cfg fc (constant_sensor vx vy vz) n s = None.
Proof.
  intros Hne Hfin Hx Hy Hz Hq Hfl.
  unfold Main.gyroscope_thread_iteration. rewrite Hfl.
  unfold Gyro.InitiateGyroscope. cbn [Gyro.conf4].
  rewrite (select_500 cfg _ Hne).
  rewrite (calibrate_constant_state vx vy vz 0 _ Hx Hy Hz).
  cbn [Gyro.set_sensitivity Gyro.sensitivity Gyro.x_threshold
       Gyro.y_threshold Gyro.z_threshold].
  match goal with
  | |- context [ Main.record_loop n 128 _ ?g _ [] ] =>
      destruct (record_loop_at_rest vx vy vz n 128 g (Main.filters s) [])
        as (g' & fl' & Hr); try reflexivity; try assumption
  end.
  rewrite Hr. cbn [mbind option_bind app].
  now rewrite trim_replicate_origin.
Qed.

Lemma at_rest_pass_never_completes_witness :
  Main.gyroscope_thread_iteration example_config unlock_requested
    (constant_sensor 3 (-2) 1) 60 Main.session0 = None.
Proof.
  assert (Hq : quiet Main.filter0).
  { split; [ exact filter0_well_formed | ].
    split; [ repeat constructor | reflexivity ]. }
  apply (at_rest_pass_never_completes example_config unlock_requested
           3 (-2) 1 60 Main.session0).
  - discriminate.
  - vm_compute. reflexivity.
  - unfold small_reading. lia.
  - unfold small_reading. lia.
  - unfold small_reading. lia.
  - exact (conj Hq (conj Hq Hq)).
  - reflexivity.
Defined.

(** ** Exchanging key and attempt *)

(** X24.  The three correlations an unlock attempt is decided on do not
    depend on which of the two recordings is the stored key and which
    the attempt: comparing them the other way round gives the same three
    floats, hence the same count of axes above the threshold. *)
Theorem unlock_correlations_symmetric (cfg : SystemConfig)
    (key record : list Sample) :
  fst (fst (Main.compare_key key record)) =
  fst (fst (Main.compare_key record key)) /\
  Main.count_axes cfg (fst (fst (Main.compare_key key record))) =
  Main.count_axes cfg (fst (fst (Main.compare_key record key))).
Proof.
  assert (H : fst (fst (Main.compare_key key record)) =
              fst (fst (Main.compare_key record key))).
  { unfold Main.compare_key.
    rewrite (Nat.min_comm (length record) (length key)).
    apply calculate_result_sym. }
  split; [ exact H | now rewrite H ].
Qed.
